(** * CHIP-8 emulator: the host GUI ([main.py]) over the interpreter core

    [main.py] defines the class [EmulatorGUI]: the tkinter/pygame host that
    owns one [Chip8] interpreter instance, loads ROMs into it, drives it from
    the emulation loop, paints its framebuffer and resets it.

    The interpreter class itself ([from chip8 import Chip8]) is a separate
    module.  The host is embedded against the interface it uses of that class
    (constructor, [load_rom], [handle_input], [emulate_cycle] and the public
    attributes it reads and writes); one instance of the interface is
    modelled from the specification of the core.

    The emulation loop runs in a thread of its own beside the tkinter
    callbacks.  Each callback and each pass through the body of the loop is
    taken here as one step on the host object; interleavings inside a pass
    are not modelled. *)

From Stdlib Require Import ZArith Bool Ascii String Lia.
From stdpp Require Import base list strings.

Local Open Scope Z_scope.

(** ** The interpreter object

    The attributes [pc], [stack], [V], [I], [delay_timer], [sound_timer],
    [display] and [draw_flag] are the ones [main.py] touches.  [memory],
    [keys] and [mode] are not named by the host; they are the remaining
    parts of the interpreter according to the data model of the
    specification. *)

Inductive ExecMode :=
| Running
| AwaitingKey (target_register : Z).

Record Chip8 := mkChip8 {
  memory : list Z;
  V : list Z;
  I : Z;
  pc : Z;
  stack : list Z;
  delay_timer : Z;
  sound_timer : Z;
  display : list Z;
  draw_flag : bool;
  keys : list bool;
  mode : ExecMode
}.

(** Python exceptions that can reach the host.  All of them derive from
    [Exception], the class [load_rom] catches; [KeyboardInterrupt] and
    [SystemExit], which do not and which [except Exception] lets through,
    have no counterpart here. *)
Inductive Exn :=
| RomTooLarge
| IllegalOpcode (opcode : Z)
| StackOverflow
| StackUnderflow
| FetchOutOfRange
| OSError (filename : string)
| IndexError.

(** A method call on the interpreter object mutates it in place; when the
    call raises, the object stays in whatever state the call left it. *)
Inductive CoreResult :=
| Ok (c : Chip8)
| Raises (e : Exn) (c : Chip8).

(** What the platform supplies: the files that can be opened, the state of
    the 16 mapped keys, and the random byte available to a cycle. *)
Definition FileSystem := string -> option (list Z).
Definition Keyboard := list bool.

(** The part of [chip8.Chip8] the host calls. *)
Class Chip8Core := {
  Chip8_new : Chip8;
  Chip8_load_rom : FileSystem -> string -> Chip8 -> CoreResult;
  Chip8_handle_input : Keyboard -> Chip8 -> CoreResult;
  Chip8_emulate_cycle : Z -> Chip8 -> CoreResult
}.

(** Modelled from the spec: the class attributes [Chip8.DISPLAY_WIDTH] and
    [Chip8.DISPLAY_HEIGHT] (the framebuffer is a 64x32 grid). *)
Definition DISPLAY_WIDTH : nat := 64.
Definition DISPLAY_HEIGHT : nat := 32.

(** Attribute assignments [self.chip8.<field> = v]. *)
Definition set_memory (v : list Z) (c : Chip8) : Chip8 :=
  mkChip8 v (V c) (I c) (pc c) (stack c) (delay_timer c) (sound_timer c)
          (display c) (draw_flag c) (keys c) (mode c).
Definition set_V (v : list Z) (c : Chip8) : Chip8 :=
  mkChip8 (memory c) v (I c) (pc c) (stack c) (delay_timer c) (sound_timer c)
          (display c) (draw_flag c) (keys c) (mode c).
Definition set_I (v : Z) (c : Chip8) : Chip8 :=
  mkChip8 (memory c) (V c) v (pc c) (stack c) (delay_timer c) (sound_timer c)
          (display c) (draw_flag c) (keys c) (mode c).
Definition set_pc (v : Z) (c : Chip8) : Chip8 :=
  mkChip8 (memory c) (V c) (I c) v (stack c) (delay_timer c) (sound_timer c)
          (display c) (draw_flag c) (keys c) (mode c).
Definition set_stack (v : list Z) (c : Chip8) : Chip8 :=
  mkChip8 (memory c) (V c) (I c) (pc c) v (delay_timer c) (sound_timer c)
          (display c) (draw_flag c) (keys c) (mode c).
Definition set_delay_timer (v : Z) (c : Chip8) : Chip8 :=
  mkChip8 (memory c) (V c) (I c) (pc c) (stack c) v (sound_timer c)
          (display c) (draw_flag c) (keys c) (mode c).
Definition set_sound_timer (v : Z) (c : Chip8) : Chip8 :=
  mkChip8 (memory c) (V c) (I c) (pc c) (stack c) (delay_timer c) v
          (display c) (draw_flag c) (keys c) (mode c).
Definition set_display (v : list Z) (c : Chip8) : Chip8 :=
  mkChip8 (memory c) (V c) (I c) (pc c) (stack c) (delay_timer c)
          (sound_timer c) v (draw_flag c) (keys c) (mode c).
Definition set_draw_flag (v : bool) (c : Chip8) : Chip8 :=
  mkChip8 (memory c) (V c) (I c) (pc c) (stack c) (delay_timer c)
          (sound_timer c) (display c) v (keys c) (mode c).
Definition set_keys (v : list bool) (c : Chip8) : Chip8 :=
  mkChip8 (memory c) (V c) (I c) (pc c) (stack c) (delay_timer c)
          (sound_timer c) (display c) (draw_flag c) v (mode c).
Definition set_mode (v : ExecMode) (c : Chip8) : Chip8 :=
  mkChip8 (memory c) (V c) (I c) (pc c) (stack c) (delay_timer c)
          (sound_timer c) (display c) (draw_flag c) (keys c) v.

(** ** The interpreter core, from its specification *)

Module SpecCore.

(** Modelled from the spec: the built-in fontset, 16 glyphs of 5 bytes for
    the digits 0-F, kept at 0x000-0x04F.  The specification fixes its size
    and place; the glyph bytes are the customary CHIP-8 ones. *)
Definition fontset : list Z :=
  [ 0xF0; 0x90; 0x90; 0x90; 0xF0;   0x20; 0x60; 0x20; 0x20; 0x70;
    0xF0; 0x10; 0xF0; 0x80; 0xF0;   0xF0; 0x10; 0xF0; 0x10; 0xF0;
    0x90; 0x90; 0xF0; 0x10; 0x10;   0xF0; 0x80; 0xF0; 0x10; 0xF0;
    0xF0; 0x80; 0xF0; 0x90; 0xF0;   0xF0; 0x10; 0x20; 0x40; 0x40;
    0xF0; 0x90; 0xF0; 0x90; 0xF0;   0xF0; 0x90; 0xF0; 0x10; 0xF0;
    0xF0; 0x90; 0xF0; 0x90; 0x90;   0xE0; 0x90; 0xE0; 0x90; 0xE0;
    0xF0; 0x80; 0x80; 0x80; 0xF0;   0xE0; 0x90; 0x90; 0x90; 0xE0;
    0xF0; 0x80; 0xF0; 0x80; 0xF0;   0xF0; 0x80; 0xF0; 0x80; 0x80 ].

Definition MEMORY_SIZE : nat := 4096.
Definition PROGRAM_START : Z := 0x200.
Definition STACK_LEVELS : nat := 16.

(** Modelled from the spec: the state of a new interpreter instance, that is
    the initial value of every field (stack empty, V=0, I=0, PC=0x200,
    timers=0, framebuffer=0, draw-flag=true), the fontset in low memory, no
    key pressed. *)
Definition init : Chip8 :=
  {| memory := fontset ++ replicate (MEMORY_SIZE - length fontset) 0;
     V := replicate 16 0;
     I := 0;
     pc := PROGRAM_START;
     stack := [];
     delay_timer := 0;
     sound_timer := 0;
     display := replicate (DISPLAY_WIDTH * DISPLAY_HEIGHT) 0;
     draw_flag := true;
     keys := replicate 16 false;
     mode := Running |}.

(** Modelled from the spec: the memory and register bank (4.1).  Addresses
    are taken modulo the 4096-byte space; bytes and registers hold 8 bits. *)
Definition read8 (c : Chip8) (addr : Z) : Z :=
  default 0 (memory c !! Z.to_nat (addr mod 4096)).

Definition write8 (addr val : Z) (c : Chip8) : Chip8 :=
  set_memory (<[Z.to_nat (addr mod 4096) := val mod 256]> (memory c)) c.

Definition read16 (c : Chip8) (addr : Z) : Z :=
  Z.lor (Z.shiftl (read8 c addr) 8) (read8 c (addr + 1)).

Definition getV (c : Chip8) (x : Z) : Z :=
  default 0 (V c !! Z.to_nat x).

Definition setV (x val : Z) (c : Chip8) : Chip8 :=
  set_V (<[Z.to_nat x := val mod 256]> (V c)) c.

(** Modelled from the spec: the ROM loader (4.2).  A payload longer than
    4096-512 bytes is refused and nothing changes; otherwise every field is
    reset and the payload is copied to 0x200 onwards. *)
Fixpoint copy_bytes (addr : nat) (bytes : list Z) (mem : list Z) : list Z :=
  match bytes with
  | [] => mem
  | b :: rest => copy_bytes (S addr) rest (<[addr := b]> mem)
  end.

Definition load (bytes : list Z) (c : Chip8) : CoreResult :=
  if (4096 - 512 <? Z.of_nat (length bytes))
  then Raises RomTooLarge c
  else Ok (set_memory (copy_bytes (Z.to_nat PROGRAM_START) bytes (memory init))
                      init).

(** [Chip8.load_rom(filename)] opens the file and loads its bytes; a file
    that cannot be opened raises before anything is touched. *)
Definition load_rom (fs : FileSystem) (filename : string) (c : Chip8)
  : CoreResult :=
  match fs filename with
  | None => Raises (OSError filename) c
  | Some bytes => load bytes c
  end.

(** Modelled from the spec: the timer unit (4.4).  One tick takes one off
    each timer that is not yet 0. *)
Definition tick_timers (c : Chip8) : Chip8 :=
  set_sound_timer (Z.max 0 (sound_timer c - 1))
    (set_delay_timer (Z.max 0 (delay_timer c - 1)) c).

(** Modelled from the spec: the input latch (4.5).  [set_key] refuses an
    index outside 0-15.  While the engine awaits a key (FX0A), the first
    transition of a key from not pressed to pressed puts that key's index
    in the target register and lets the program counter advance. *)
Definition is_pressed (c : Chip8) (index : Z) : bool :=
  if index <? 0 then false else default false (keys c !! Z.to_nat index).

Definition set_key (index : Z) (pressed : bool) (c : Chip8) : CoreResult :=
  if (index <? 0) || (16 <=? index) then Raises IndexError c
  else
    let was := is_pressed c index in
    let c1 := set_keys (<[Z.to_nat index := pressed]> (keys c)) c in
    match mode c with
    | AwaitingKey x =>
        if pressed && negb was
        then Ok (set_mode Running (set_pc (pc c1 + 2) (setV x index c1)))
        else Ok c1
    | Running => Ok c1
    end.

Fixpoint set_keys_from (index : nat) (kb : list bool) (c : Chip8)
  : CoreResult :=
  match kb with
  | [] => Ok c
  | pressed :: rest =>
      match set_key (Z.of_nat index) pressed c with
      | Ok c' => set_keys_from (S index) rest c'
      | Raises e c' => Raises e c'
      end
  end.

(** [Chip8.handle_input()] copies the state of the 16 mapped keys into the
    latch. *)
Definition handle_input (kb : Keyboard) (c : Chip8) : CoreResult :=
  set_keys_from 0 (take 16 kb) c.

(** Modelled from the spec: the instruction set (4.3), decoded into an
    enumerated instruction that carries its operands. *)
Inductive Instr :=
| CLS | RET
| JP (nnn : Z) | CALL (nnn : Z)
| SE_imm (x nn : Z) | SNE_imm (x nn : Z) | SE_reg (x y : Z)
| LD_imm (x nn : Z) | ADD_imm (x nn : Z)
| LD_reg (x y : Z) | OR_reg (x y : Z) | AND_reg (x y : Z) | XOR_reg (x y : Z)
| ADD_reg (x y : Z) | SUB_reg (x y : Z) | SHR (x : Z) | SUBN_reg (x y : Z)
| SHL (x : Z)
| SNE_reg (x y : Z)
| LD_I (nnn : Z) | JP_V0 (nnn : Z) | RND (x nn : Z) | DRW (x y n : Z)
| SKP (x : Z) | SKNP (x : Z)
| LD_from_DT (x : Z) | LD_key (x : Z) | LD_DT (x : Z) | LD_ST (x : Z)
| ADD_I (x : Z) | LD_font (x : Z) | LD_bcd (x : Z)
| ST_regs (x : Z) | LD_regs (x : Z).

Definition decode (opcode : Z) : option Instr :=
  let x := Z.land (Z.shiftr opcode 8) 0xF in
  let y := Z.land (Z.shiftr opcode 4) 0xF in
  let n := Z.land opcode 0xF in
  let nn := Z.land opcode 0xFF in
  let nnn := Z.land opcode 0xFFF in
  match Z.shiftr opcode 12 with
  | 0x0 => if opcode =? 0x00E0 then Some CLS
           else if opcode =? 0x00EE then Some RET else None
  | 0x1 => Some (JP nnn)
  | 0x2 => Some (CALL nnn)
  | 0x3 => Some (SE_imm x nn)
  | 0x4 => Some (SNE_imm x nn)
  | 0x5 => if n =? 0 then Some (SE_reg x y) else None
  | 0x6 => Some (LD_imm x nn)
  | 0x7 => Some (ADD_imm x nn)
  | 0x8 => match n with
           | 0x0 => Some (LD_reg x y)
           | 0x1 => Some (OR_reg x y)
           | 0x2 => Some (AND_reg x y)
           | 0x3 => Some (XOR_reg x y)
           | 0x4 => Some (ADD_reg x y)
           | 0x5 => Some (SUB_reg x y)
           | 0x6 => Some (SHR x)
           | 0x7 => Some (SUBN_reg x y)
           | 0xE => Some (SHL x)
           | _ => None
           end
  | 0x9 => if n =? 0 then Some (SNE_reg x y) else None
  | 0xA => Some (LD_I nnn)
  | 0xB => Some (JP_V0 nnn)
  | 0xC => Some (RND x nn)
  | 0xD => Some (DRW x y n)
  | 0xE => match nn with
           | 0x9E => Some (SKP x)
           | 0xA1 => Some (SKNP x)
           | _ => None
           end
  | 0xF => match nn with
           | 0x07 => Some (LD_from_DT x)
           | 0x0A => Some (LD_key x)
           | 0x15 => Some (LD_DT x)
           | 0x18 => Some (LD_ST x)
           | 0x1E => Some (ADD_I x)
           | 0x29 => Some (LD_font x)
           | 0x33 => Some (LD_bcd x)
           | 0x55 => Some (ST_regs x)
           | 0x65 => Some (LD_regs x)
           | _ => None
           end
  | _ => None
  end.

Definition skip_if (b : bool) (c : Chip8) : Chip8 :=
  if b then set_pc (pc c + 2) c else c.

Definition bool_to_Z (b : bool) : Z := if b then 1 else 0.

(** One sprite pixel XORed onto the framebuffer at column [px], row [py]
    (both already reduced); the flag records a pixel going from 1 to 0. *)
Definition flip_pixel (px py : Z) (st : Chip8 * bool) : Chip8 * bool :=
  let '(c, hit) := st in
  let idx := Z.to_nat (py * 64 + px) in
  let old := default 0 (display c !! idx) in
  (set_display (<[idx := Z.lxor old 1]> (display c)) c, hit || (old =? 1)).

Definition draw_row (x0 y0 : Z) (row : nat) (st : Chip8 * bool)
  : Chip8 * bool :=
  let byte := read8 (fst st) (I (fst st) + Z.of_nat row) in
  foldl (fun acc col =>
           if Z.testbit byte (7 - Z.of_nat col)
           then flip_pixel ((x0 + Z.of_nat col) mod 64)
                           ((y0 + Z.of_nat row) mod 32) acc
           else acc)
        st (seq 0 8).

Definition draw_sprite (x y n : Z) (c : Chip8) : Chip8 :=
  let x0 := getV c x mod 64 in
  let y0 := getV c y mod 32 in
  let '(c', hit) :=
    foldl (fun acc row => draw_row x0 y0 row acc) (c, false)
          (seq 0 (Z.to_nat n)) in
  set_draw_flag true (setV 0xF (bool_to_Z hit) c').

Definition store_regs (x : Z) (c : Chip8) : Chip8 :=
  foldl (fun acc i => write8 (I c + Z.of_nat i) (getV c (Z.of_nat i)) acc)
        c (seq 0 (S (Z.to_nat x))).

Definition load_regs (x : Z) (c : Chip8) : Chip8 :=
  foldl (fun acc i => setV (Z.of_nat i) (read8 c (I c + Z.of_nat i)) acc)
        c (seq 0 (S (Z.to_nat x))).

(** The effect of one decoded instruction; the program counter has already
    been advanced past it.  [rnd] is the random byte of this cycle. *)
Definition execute (rnd : Z) (i : Instr) (c : Chip8) : CoreResult :=
  match i with
  | CLS => Ok (set_draw_flag true
                 (set_display (replicate (DISPLAY_WIDTH * DISPLAY_HEIGHT) 0) c))
  | RET => match stack c with
           | [] => Raises StackUnderflow c
           | ret :: rest => Ok (set_pc ret (set_stack rest c))
           end
  | JP nnn => Ok (set_pc nnn c)
  | CALL nnn => if (STACK_LEVELS <=? length (stack c))%nat
                then Raises StackOverflow c
                else Ok (set_pc nnn (set_stack (pc c :: stack c) c))
  | SE_imm x nn => Ok (skip_if (getV c x =? nn) c)
  | SNE_imm x nn => Ok (skip_if (negb (getV c x =? nn)) c)
  | SE_reg x y => Ok (skip_if (getV c x =? getV c y) c)
  | LD_imm x nn => Ok (setV x nn c)
  | ADD_imm x nn => Ok (setV x (getV c x + nn) c)
  | LD_reg x y => Ok (setV x (getV c y) c)
  | OR_reg x y => Ok (setV x (Z.lor (getV c x) (getV c y)) c)
  | AND_reg x y => Ok (setV x (Z.land (getV c x) (getV c y)) c)
  | XOR_reg x y => Ok (setV x (Z.lxor (getV c x) (getV c y)) c)
  | ADD_reg x y =>
      let sum := getV c x + getV c y in
      Ok (setV 0xF (bool_to_Z (255 <? sum)) (setV x sum c))
  | SUB_reg x y =>
      let vx := getV c x in
      let vy := getV c y in
      Ok (setV 0xF (bool_to_Z (vy <=? vx)) (setV x (vx - vy) c))
  | SHR x =>
      let vx := getV c x in
      Ok (setV x (Z.shiftr vx 1) (setV 0xF (Z.land vx 1) c))
  | SUBN_reg x y =>
      let vx := getV c x in
      let vy := getV c y in
      Ok (setV 0xF (bool_to_Z (vx <=? vy)) (setV x (vy - vx) c))
  | SHL x =>
      let vx := getV c x in
      Ok (setV x (Z.shiftl vx 1) (setV 0xF (Z.land (Z.shiftr vx 7) 1) c))
  | SNE_reg x y => Ok (skip_if (negb (getV c x =? getV c y)) c)
  | LD_I nnn => Ok (set_I nnn c)
  | JP_V0 nnn => Ok (set_pc (nnn + getV c 0) c)
  | RND x nn => Ok (setV x (Z.land (rnd mod 256) nn) c)
  | DRW x y n => Ok (draw_sprite x y n c)
  | SKP x => Ok (skip_if (is_pressed c (getV c x)) c)
  | SKNP x => Ok (skip_if (negb (is_pressed c (getV c x))) c)
  | LD_from_DT x => Ok (setV x (delay_timer c) c)
  | LD_key x => Ok (set_mode (AwaitingKey x) (set_pc (pc c - 2) c))
  | LD_DT x => Ok (set_delay_timer (getV c x) c)
  | LD_ST x => Ok (set_sound_timer (getV c x) c)
  | ADD_I x => Ok (set_I ((I c + getV c x) mod 65536) c)
  | LD_font x => Ok (set_I (getV c x * 5) c)
  | LD_bcd x =>
      let vx := getV c x in
      Ok (write8 (I c + 2) (vx mod 10)
            (write8 (I c + 1) ((vx / 10) mod 10)
               (write8 (I c) (vx / 100) c)))
  | ST_regs x => Ok (store_regs x c)
  | LD_regs x => Ok (load_regs x c)
  end.

(** One cycle: fetch at PC (refused from 4096 on), advance PC by 2, decode,
    execute.  A cycle driven while the engine awaits a key makes no
    progress.  The timers are not touched by a cycle unless the instruction
    itself assigns one: they advance only in [tick_timers]. *)
Definition step (rnd : Z) (c : Chip8) : CoreResult :=
  match mode c with
  | AwaitingKey _ => Ok c
  | Running =>
      if 4096 <=? pc c then Raises FetchOutOfRange c
      else
        let opcode := read16 c (pc c) in
        let c1 := set_pc (pc c + 2) c in
        match decode opcode with
        | None => Raises (IllegalOpcode opcode) c1
        | Some i => execute rnd i c1
        end
  end.

End SpecCore.

(** The core of the specification as an implementation of the interface
    the host is written against. *)
#[export] Instance spec_core : Chip8Core := {
  Chip8_new := SpecCore.init;
  Chip8_load_rom := SpecCore.load_rom;
  Chip8_handle_input := SpecCore.handle_input;
  Chip8_emulate_cycle := SpecCore.step
}.

(** ** The host: [class EmulatorGUI] *)

Definition Colour := (Z * Z * Z)%type.
Definition WHITE : Colour := (255, 255, 255).
Definition BLACK : Colour := (0, 0, 0).

(** The 640x320 pygame surface: the colour of the pixel in column [px] and
    row [py]. *)
Definition Surface := nat -> nat -> Colour.

Record Label := mkLabel { text : string; fg : string }.

Record EmulatorGUI := mkGUI {
  chip8 : Chip8;
  running : bool;
  paused : bool;
  rom_loaded : bool;
  screen : Surface;
  status_label : Label
}.

Inductive PygameEvent :=
| QUIT
| OtherEvent (type : Z).

(** Calls that leave the host object: on the interpreter, on pygame, on
    tkinter.  A run of host code records them in order.  An error dialog
    shows [message] followed by [str] of the exception caught. *)
Inductive Effect :=
| CallChip8
| CallLoadRom (filename : string)
| CallHandleInput
| CallEmulateCycle
| ScreenFill (color : Colour)
| DisplayFlip
| ClockTick (framerate : Z)
| TimeSleep
| ShowError (title message : string) (cause : Exn)
| ShowInfo (title : string)
| PygameQuit
| RootQuit
| RootDestroy.

(** How a piece of host code ends. *)
Inductive Outcome (A : Type) :=
| Normal (a : A)
| Returned
| Uncaught (e : Exn).
Arguments Normal {A} a.
Arguments Returned {A}.
Arguments Uncaught {A} e.

Record Run (A : Type) := mkRun {
  outcome : Outcome A;
  final : EmulatorGUI;
  effects : list Effect
}.
Arguments mkRun {A} _ _ _.
Arguments outcome {A} _.
Arguments final {A} _.
Arguments effects {A} _.

(** Host code: from the host object before to the way it ends, the host
    object after and the calls made. *)
Definition Host (A : Type) : Type := EmulatorGUI -> Run A.

Definition ret {A} (a : A) : Host A := fun g => mkRun (Normal a) g [].

Definition bind {A B} (m : Host A) (k : A -> Host B) : Host B :=
  fun g =>
    match m g with
    | mkRun (Normal a) g1 tr1 =>
        match k a g1 with
        | mkRun out g2 tr2 => mkRun out g2 (tr1 ++ tr2)
        end
    | mkRun Returned g1 tr1 => mkRun Returned g1 tr1
    | mkRun (Uncaught e) g1 tr1 => mkRun (Uncaught e) g1 tr1
    end.

Declare Scope host_scope.
Delimit Scope host_scope with host.
Notation "x <- m ;; k" := (bind m (fun x => k))
  (at level 100, m at next level, k at level 200, right associativity)
  : host_scope.
Notation "m ;; k" := (bind m (fun _ => k))
  (at level 100, k at level 200, right associativity) : host_scope.
Local Open Scope host_scope.

Definition get : Host EmulatorGUI := fun g => mkRun (Normal g) g [].
Definition modify (f : EmulatorGUI -> EmulatorGUI) : Host unit :=
  fun g => mkRun (Normal tt) (f g) [].
Definition emit (e : Effect) : Host unit := fun g => mkRun (Normal tt) g [e].
Definition raise {A} (e : Exn) : Host A := fun g => mkRun (Uncaught e) g [].
Definition return_ {A} : Host A := fun g => mkRun Returned g [].

(** [try: body except Exception as e: handler(e)].  The handler starts from
    the host object as the body left it.  Every [Exn] is an [Exception], so
    every [Exn] is caught; what Python raises outside [Exception] is not in
    [Exn] and is not described by this combinator. *)
Definition try_except (body : Host unit) (handler : Exn -> Host unit)
  : Host unit :=
  fun g =>
    match body g with
    | mkRun (Uncaught e) g1 tr1 =>
        match handler e g1 with
        | mkRun out g2 tr2 => mkRun out g2 (tr1 ++ tr2)
        end
    | r => r
    end.

(** [for x in xs: body(x)]. *)
Fixpoint for_each {A} (xs : list A) (body : A -> Host unit) : Host unit :=
  match xs with
  | [] => ret tt
  | x :: rest => body x ;; for_each rest body
  end.

(** Attribute assignments [self.<field> = v]. *)
Definition set_chip8 (v : Chip8) (g : EmulatorGUI) : EmulatorGUI :=
  mkGUI v (running g) (paused g) (rom_loaded g) (screen g) (status_label g).
Definition set_running (v : bool) (g : EmulatorGUI) : EmulatorGUI :=
  mkGUI (chip8 g) v (paused g) (rom_loaded g) (screen g) (status_label g).
Definition set_paused (v : bool) (g : EmulatorGUI) : EmulatorGUI :=
  mkGUI (chip8 g) (running g) v (rom_loaded g) (screen g) (status_label g).
Definition set_rom_loaded (v : bool) (g : EmulatorGUI) : EmulatorGUI :=
  mkGUI (chip8 g) (running g) (paused g) v (screen g) (status_label g).
Definition set_screen (v : Surface) (g : EmulatorGUI) : EmulatorGUI :=
  mkGUI (chip8 g) (running g) (paused g) (rom_loaded g) v (status_label g).
Definition set_status_label (v : Label) (g : EmulatorGUI) : EmulatorGUI :=
  mkGUI (chip8 g) (running g) (paused g) (rom_loaded g) (screen g) v.

(** [self.chip8.<field> = v]: the interpreter object is updated in place. *)
Definition modify_chip8 (f : Chip8 -> Chip8) : Host unit :=
  modify (fun g => set_chip8 (f (chip8 g)) g).

(** A method call on [self.chip8]. *)
Definition call_chip8 (name : Effect) (method : Chip8 -> CoreResult)
  : Host unit :=
  fun g =>
    match method (chip8 g) with
    | Ok c => mkRun (Normal tt) (set_chip8 c g) [name]
    | Raises e c => mkRun (Uncaught e) (set_chip8 c g) [name]
    end.

(** [os.path.basename]: what follows the last slash. *)
Fixpoint basename_from (acc : string) (path : string) : string :=
  match path with
  | EmptyString => acc
  | String ch rest =>
      if Ascii.eqb ch "/"%char then basename_from EmptyString rest
      else basename_from (acc +:+ String ch EmptyString) rest
  end.
Definition basename (path : string) : string := basename_from EmptyString path.

(** [pixel_array[x0:x1, y0:y1] = color]. *)
Definition slice_assign (x0 x1 y0 y1 : nat) (color : Colour) (s : Surface)
  : Surface :=
  fun px py =>
    if ((x0 <=? px) && (px <? x1) && (y0 <=? py) && (py <? y1))%nat
    then color else s px py.

(** Input of one pass through the emulation loop: the pending pygame
    events, the keys held down, the random bytes. *)
Record Frame := mkFrame {
  events : list PygameEvent;
  keyboard : Keyboard;
  random : nat -> Z
}.

Definition is_quit (event : PygameEvent) : bool :=
  match event with QUIT => true | OtherEvent _ => false end.

Section Host.
Context `{Chip8Core}.

(** [EmulatorGUI.__init__]: the host object once the constructor is done. *)
Definition EmulatorGUI_new : EmulatorGUI :=
  {| chip8 := Chip8_new;
     running := true;
     paused := false;
     rom_loaded := false;
     screen := fun _ _ => BLACK;
     status_label := mkLabel "No ROM loaded" "red" |}.

(** [EmulatorGUI.load_rom]; [filename] is the answer of the file dialog,
    empty when the dialog is cancelled. *)
Definition load_rom (fs : FileSystem) (filename : string) : Host unit :=
  if negb (String.eqb filename "") then
    try_except
      (emit CallChip8 ;;
       modify (set_chip8 Chip8_new) ;;
       call_chip8 (CallLoadRom filename) (Chip8_load_rom fs filename) ;;
       modify (set_rom_loaded true) ;;
       modify (set_paused false) ;;
       modify (set_status_label
                 (mkLabel ("Running: " +:+ basename filename) "green")))
      (fun e => emit (ShowError "Error" "Failed to load ROM: " e))
  else ret tt.

(** [EmulatorGUI.draw_display]: [draw_cell y x] is the body of the inner
    loop; indexing the framebuffer list past its end raises. *)
Definition draw_cell (y x : nat) : Host unit :=
  g <- get ;;
  match display (chip8 g) !! (y * 64 + x)%nat with
  | None => raise IndexError
  | Some v =>
      let color := if v =? 1 then WHITE else BLACK in
      modify (set_screen
                (slice_assign (x * 10) ((x + 1) * 10)
                              (y * 10) ((y + 1) * 10) color (screen g)))
  end.

Definition draw_display : Host unit :=
  for_each (seq 0 32) (fun y =>
    for_each (seq 0 64) (fun x => draw_cell y x)).

(** [EmulatorGUI.quit_emulator]. *)
Definition quit_emulator : Host unit :=
  modify (set_running false) ;;
  emit PygameQuit ;;
  emit RootQuit ;;
  emit RootDestroy.

(** The body of [while self.running:] in [EmulatorGUI.emulation_loop],
    block by block. *)

(** "Handle Pygame events": a QUIT event quits and leaves the function,
    any other event has the interpreter poll its input. *)
Definition handle_events (f : Frame) : Host unit :=
  for_each (events f) (fun event =>
    if is_quit event then quit_emulator ;; return_
    else call_chip8 CallHandleInput (Chip8_handle_input (keyboard f))).

(** "Emulate multiple cycles per frame". *)
Definition emulate_cycles (f : Frame) : Host unit :=
  for_each (seq 0 10) (fun i =>
    call_chip8 CallEmulateCycle (Chip8_emulate_cycle (random f i))).

(** "Update display if needed". *)
Definition update_display : Host unit :=
  g <- get ;;
  if draw_flag (chip8 g) then
    emit (ScreenFill BLACK) ;;
    modify (set_screen (fun _ _ => BLACK)) ;;
    draw_display ;;
    emit DisplayFlip ;;
    modify_chip8 (set_draw_flag false)
  else ret tt.

(** "Handle Pygame events even when paused to allow window closing". *)
Definition handle_events_paused (f : Frame) : Host unit :=
  for_each (events f) (fun event =>
    if is_quit event then quit_emulator ;; return_ else ret tt).

Definition emulation_loop_body (f : Frame) : Host unit :=
  g <- get ;;
  if rom_loaded g && negb (paused g) then
    handle_events f ;;
    emulate_cycles f ;;
    update_display ;;
    emit (ClockTick 60)
  else
    handle_events_paused f ;;
    emit TimeSleep.

(** [EmulatorGUI.emulation_loop], one [Frame] of input per pass. *)
Fixpoint emulation_loop (frames : list Frame) : Host unit :=
  match frames with
  | [] => ret tt
  | f :: rest =>
      g <- get ;;
      if running g then emulation_loop_body f ;; emulation_loop rest
      else ret tt
  end.

(** [EmulatorGUI.toggle_pause]. *)
Definition toggle_pause : Host unit :=
  g <- get ;;
  modify (set_paused (negb (paused g))) ;;
  g1 <- get ;;
  let status_text := if paused g1 then "Paused" else "Running" in
  modify (set_status_label (mkLabel status_text (fg (status_label g1)))).

(** [EmulatorGUI.reset]. *)
Definition reset : Host unit :=
  g <- get ;;
  if rom_loaded g then
    modify_chip8 (set_pc 0x200) ;;
    modify_chip8 (set_stack []) ;;
    modify_chip8 (set_V (replicate 16 0)) ;;
    modify_chip8 (set_I 0) ;;
    modify_chip8 (set_delay_timer 0) ;;
    modify_chip8 (set_sound_timer 0) ;;
    modify_chip8 (set_display (replicate (DISPLAY_WIDTH * DISPLAY_HEIGHT) 0)) ;;
    modify_chip8 (set_draw_flag true)
  else ret tt.

(** [EmulatorGUI.show_controls] and [EmulatorGUI.show_about]. *)
Definition show_controls : Host unit := emit (ShowInfo "Controls").
Definition show_about : Host unit := emit (ShowInfo "About").

(** The commands wired in [create_menu] and [create_controls]: what the
    user can make the host do from the window. *)
Inductive Command :=
| MenuLoadRom (fs : FileSystem) (filename : string)
| MenuExit
| MenuControls
| MenuAbout
| ButtonPauseResume
| ButtonReset.

Definition command (cmd : Command) : Host unit :=
  match cmd with
  | MenuLoadRom fs filename => load_rom fs filename
  | MenuExit => quit_emulator
  | MenuControls => show_controls
  | MenuAbout => show_about
  | ButtonPauseResume => toggle_pause
  | ButtonReset => reset
  end.

End Host.

(** ** The main thread: [EmulatorGUI.run] and [main] *)

(** What one [self.root.update()] did: the callbacks tkinter invoked, in
    order, and whether the call then raised [tk.TclError] because the window
    is gone.  Closing the window invokes [quit_emulator], as the Exit entry
    of the menu does. *)
Record Update := mkUpdate {
  callbacks : list Command;
  tcl_error : bool
}.

Section MainThread.
Context `{Chip8Core}.

(** [EmulatorGUI.run], one [Update] per pass of [while True:]. *)
Fixpoint run (updates : list Update) : Host unit :=
  match updates with
  | [] => ret tt
  | u :: rest =>
      for_each (callbacks u) command ;;
      if tcl_error u then
        modify (set_running false) ;;
        emit PygameQuit
      else
        g <- get ;;
        if negb (running g) then ret tt else run rest
  end.

(** [main]: build the host, run it. *)
Definition main (updates : list Update) : Run unit :=
  run updates EmulatorGUI_new.

End MainThread.

(** ** Descriptions used in the statements *)

(** The interpreter after a run of method calls, one per element of [xs],
    stopping at the first call that raises. *)
Fixpoint call_each {A} (method : A -> Chip8 -> CoreResult) (xs : list A)
  (c : Chip8) : CoreResult :=
  match xs with
  | [] => Ok c
  | x :: rest =>
      match method x c with
      | Ok c' => call_each method rest c'
      | Raises e c' => Raises e c'
      end
  end.

(** What one pass of the loop asks of the interpreter before the display is
    looked at: the input handler once per pending event, then the cycles
    [for _ in range(10)]. *)
Definition drive `{Chip8Core} (f : Frame) (c : Chip8) : CoreResult :=
  match call_each (fun _ : PygameEvent => Chip8_handle_input (keyboard f))
                  (events f) c with
  | Ok c' => call_each (fun i => Chip8_emulate_cycle (random f i)) (seq 0 10) c'
  | Raises e c' => Raises e c'
  end.

Definition has_quit (evs : list PygameEvent) : bool := List.existsb is_quit evs.

Definition is_cycle_call (e : Effect) : bool :=
  match e with CallEmulateCycle => true | _ => false end.

Definition is_chip8_call (e : Effect) : bool :=
  match e with
  | CallChip8 | CallLoadRom _ | CallHandleInput | CallEmulateCycle => true
  | _ => false
  end.

Definition is_display_update (e : Effect) : bool :=
  match e with ScreenFill _ | DisplayFlip => true | _ => false end.

Definition is_clock_tick (e : Effect) : bool :=
  match e with ClockTick _ => true | _ => false end.

Definition count (p : Effect -> bool) (tr : list Effect) : nat :=
  length (List.filter p tr).

(** The colour [draw_display] picks for framebuffer cell (x, y), and the
    surface after the blocks of some cells are painted in loop order. *)
Definition cell_colour (d : list Z) (y x : nat) : Colour :=
  match d !! (y * 64 + x)%nat with
  | Some v => if v =? 1 then WHITE else BLACK
  | None => BLACK
  end.

Definition paint_cell (d : list Z) (y x : nat) (s : Surface) : Surface :=
  slice_assign (x * 10) ((x + 1) * 10) (y * 10) ((y + 1) * 10)
               (cell_colour d y x) s.

Definition paint_row (d : list Z) (xs : list nat) (y : nat) (s : Surface)
  : Surface :=
  foldl (fun acc x => paint_cell d y x acc) s xs.

Definition paint (d : list Z) (ys xs : list nat) (s : Surface) : Surface :=
  foldl (fun acc y => paint_row d xs y acc) s ys.

(** Pixel (px, py) lies in the 10x10 block whose top-left corner is
    (10*x, 10*y). *)
Definition in_block (x y px py : nat) : Prop :=
  (10 * x <= px < 10 * x + 10)%nat /\ (10 * y <= py < 10 * y + 10)%nat.


(** The fields [EmulatorGUI.reset] assigns. *)
Definition reset_fields (c : Chip8)
  : list Z * list Z * Z * Z * Z * Z * list Z * bool :=
  (stack c, V c, I c, pc c, delay_timer c, sound_timer c, display c,
   draw_flag c).


(** What a piece of host code may do to the host's own flags when it is
    part of the emulation loop: [rom_loaded], [paused] and the status label
    stay, and [running] changes only by going off when the code returns
    early (on a QUIT event). *)
Definition pass_flags {A} (g : EmulatorGUI) (r : Run A) : Prop :=
  rom_loaded (final r) = rom_loaded g /\
  paused (final r) = paused g /\
  status_label (final r) = status_label g /\
  running (final r)
  = match outcome r with Returned => false | _ => running g end.

(** The calls the emulation loop makes, and the calls the commands of the
    window make. *)
Definition is_loop_effect (e : Effect) : bool :=
  match e with
  | CallHandleInput | CallEmulateCycle | ScreenFill _ | DisplayFlip
  | ClockTick _ | TimeSleep | PygameQuit | RootQuit | RootDestroy => true
  | _ => false
  end.

Definition is_command_effect (e : Effect) : bool :=
  match e with
  | CallChip8 | CallLoadRom _ | ShowError _ _ _ | ShowInfo _
  | PygameQuit | RootQuit | RootDestroy => true
  | _ => false
  end.

Definition is_error_dialog (e : Effect) : bool :=
  match e with ShowError _ _ _ => true | _ => false end.

(** ** Sample runs on the core of the specification *)

Definition timer_rom : list Z := [0x60; 0x05; 0xF0; 0x15; 0x12; 0x04].
Definition return_rom : list Z := [0x00; 0xEE].
Definition oversized_rom : list Z := replicate 3585 0.

Definition sample_files : FileSystem := fun name =>
  if String.eqb name "roms/timer.ch8" then Some timer_rom
  else if String.eqb name "roms/return.ch8" then Some return_rom
  else if String.eqb name "roms/oversized.ch8" then Some oversized_rom
  else None.

Definition quiet_frame : Frame := mkFrame [] (replicate 16 false) (fun _ => 0).
Definition key_frame : Frame :=
  mkFrame [OtherEvent 768] (replicate 16 false) (fun _ => 0).

(** The host after loading the timer program, and after one more pass of
    the loop. *)
Definition timer_loaded : EmulatorGUI :=
  final (load_rom sample_files "roms/timer.ch8" EmulatorGUI_new).
Definition timer_started : EmulatorGUI :=
  final (emulation_loop_body quiet_frame timer_loaded).
Definition return_loaded : EmulatorGUI :=
  final (load_rom sample_files "roms/return.ch8" EmulatorGUI_new).

(** The interpreter of [timer_loaded] once a pass with one pending event
    has polled the input and run its cycles. *)
Definition timer_driven : Chip8 :=
  match drive key_frame (chip8 timer_loaded) with
  | Ok c => c
  | Raises _ c => c
  end.

(** A frame with a QUIT event between two key events, and a host whose
    framebuffer list is too short. *)
Definition quit_frame : Frame :=
  mkFrame [OtherEvent 768; QUIT; OtherEvent 769] (replicate 16 false)
          (fun _ => 0).
Definition short_framebuffer : EmulatorGUI :=
  set_chip8 (set_display (replicate 100 0) (chip8 timer_loaded)) timer_loaded.

(** The interpreters that a pass without events leaves behind its cycles
    on [short_framebuffer] and on [return_loaded]. *)
Definition short_driven : Chip8 :=
  match drive quiet_frame (chip8 short_framebuffer) with
  | Ok c => c
  | Raises _ c => c
  end.
Definition return_faulted : Chip8 :=
  match drive quiet_frame (chip8 return_loaded) with
  | Ok c => c
  | Raises _ c => c
  end.

(** A host whose framebuffer has the single pixel (x=1, y=1) lit. *)
Definition one_pixel_lit : EmulatorGUI :=
  set_chip8 (set_display (<[65%nat := 1]> (replicate 2048 0)) SpecCore.init)
            EmulatorGUI_new.

(** ** Running host code *)

Lemma set_chip8_same (g : EmulatorGUI) : set_chip8 (chip8 g) g = g.
Proof. destruct g; reflexivity. Qed.

Lemma set_draw_flag_same (c : Chip8) : set_draw_flag (draw_flag c) c = c.
Proof. destruct c; reflexivity. Qed.

Lemma bind_normal {A B} (m : Host A) (k : A -> Host B) g a g' tr :
  m g = mkRun (Normal a) g' tr ->
  bind m k g = mkRun (outcome (k a g')) (final (k a g')) (tr ++ effects (k a g')).
Proof. intros Hm. unfold bind. rewrite Hm. by destruct (k a g'). Qed.

Lemma bind_returned {A B} (m : Host A) (k : A -> Host B) g g' tr :
  m g = mkRun Returned g' tr -> bind m k g = mkRun Returned g' tr.
Proof. intros Hm. unfold bind. rewrite Hm. reflexivity. Qed.

Lemma bind_uncaught {A B} (m : Host A) (k : A -> Host B) g e g' tr :
  m g = mkRun (Uncaught e) g' tr -> bind m k g = mkRun (Uncaught e) g' tr.
Proof. intros Hm. unfold bind. rewrite Hm. reflexivity. Qed.

Lemma run_eta {A} (r : Run A) : mkRun (outcome r) (final r) (effects r) = r.
Proof. destruct r; reflexivity. Qed.

Lemma call_chip8_ok name method g c :
  method (chip8 g) = Ok c ->
  call_chip8 name method g = mkRun (Normal tt) (set_chip8 c g) [name].
Proof. intros Hm. unfold call_chip8. rewrite Hm. reflexivity. Qed.

Lemma call_chip8_raises name method g e c :
  method (chip8 g) = Raises e c ->
  call_chip8 name method g = mkRun (Uncaught e) (set_chip8 c g) [name].
Proof. intros Hm. unfold call_chip8. rewrite Hm. reflexivity. Qed.

Lemma for_each_call_ok {A} (name : Effect) (method : A -> Chip8 -> CoreResult)
    (xs : list A) (g : EmulatorGUI) (c : Chip8) :
  call_each method xs (chip8 g) = Ok c ->
  for_each xs (fun x => call_chip8 name (method x)) g =
  mkRun (Normal tt) (set_chip8 c g) (replicate (length xs) name).
Proof.
  revert g. induction xs as [|x xs IH]; intros g Hc; simpl in *.
  - injection Hc as <-. by rewrite set_chip8_same.
  - destruct (method x (chip8 g)) as [c'|e c'] eqn:Hm; [|discriminate].
    rewrite (bind_normal _ _ _ _ _ _ (call_chip8_ok name _ _ _ Hm)).
    rewrite (IH (set_chip8 c' g) Hc). reflexivity.
Qed.

Lemma for_each_call_raises {A} (name : Effect)
    (method : A -> Chip8 -> CoreResult) (xs : list A) (g : EmulatorGUI)
    (e : Exn) (c : Chip8) :
  call_each method xs (chip8 g) = Raises e c ->
  exists k, (k <= length xs)%nat /\
    for_each xs (fun x => call_chip8 name (method x)) g =
    mkRun (Uncaught e) (set_chip8 c g) (replicate k name).
Proof.
  revert g. induction xs as [|x xs IH]; intros g Hc; simpl in *.
  - discriminate.
  - destruct (method x (chip8 g)) as [c'|e' c'] eqn:Hm.
    + rewrite (bind_normal _ _ _ _ _ _ (call_chip8_ok name _ _ _ Hm)).
      destruct (IH (set_chip8 c' g) Hc) as (k & Hk & ->).
      exists (S k). split; [lia|reflexivity].
    + injection Hc as <- <-.
      rewrite (bind_uncaught _ _ _ _ _ _ (call_chip8_raises name _ _ _ _ Hm)).
      exists 1%nat. split; [lia|reflexivity].
Qed.

(** ** Painting the framebuffer *)

Lemma set_screen_same (g : EmulatorGUI) : set_screen (screen g) g = g.
Proof. destruct g; reflexivity. Qed.

Lemma slice_assign_inside x0 x1 y0 y1 color s px py :
  (x0 <= px < x1)%nat -> (y0 <= py < y1)%nat ->
  slice_assign x0 x1 y0 y1 color s px py = color.
Proof.
  intros [Hx0 Hx1] [Hy0 Hy1]. unfold slice_assign.
  destruct (Nat.leb_spec x0 px), (Nat.ltb_spec px x1),
           (Nat.leb_spec y0 py), (Nat.ltb_spec py y1); simpl; try lia.
  reflexivity.
Qed.

Lemma slice_assign_outside x0 x1 y0 y1 color s px py :
  ~ ((x0 <= px < x1)%nat /\ (y0 <= py < y1)%nat) ->
  slice_assign x0 x1 y0 y1 color s px py = s px py.
Proof.
  intros Hout. unfold slice_assign.
  destruct (Nat.leb_spec x0 px), (Nat.ltb_spec px x1),
           (Nat.leb_spec y0 py), (Nat.ltb_spec py y1); simpl; try reflexivity.
  exfalso. apply Hout. lia.
Qed.

Lemma paint_cell_same d x y s px py :
  in_block x y px py -> paint_cell d y x s px py = cell_colour d y x.
Proof.
  intros [Hx Hy]. unfold paint_cell. apply slice_assign_inside; lia.
Qed.

Lemma paint_cell_other d x y x0 y0 s px py :
  in_block x0 y0 px py -> x <> x0 \/ y <> y0 ->
  paint_cell d y x s px py = s px py.
Proof.
  intros [Hx Hy] Hne. unfold paint_cell. apply slice_assign_outside. lia.
Qed.

Lemma paint_row_miss d xs y x0 y0 s px py :
  in_block x0 y0 px py -> x0 ∉ xs \/ y <> y0 ->
  paint_row d xs y s px py = s px py.
Proof.
  intros Hin. revert s. induction xs as [|x xs IH]; intros s Hmiss.
  - reflexivity.
  - unfold paint_row in *. simpl. rewrite IH.
    + apply (paint_cell_other d x y x0 y0); [exact Hin|].
      destruct Hmiss as [Hx|Hy]; [left|right; exact Hy].
      intros ->. apply Hx. left.
    + destruct Hmiss as [Hx|Hy]; [left|right; exact Hy].
      intros Hx0. apply Hx. by right.
Qed.

Lemma paint_row_hit d xs x0 y0 s px py :
  in_block x0 y0 px py -> x0 ∈ xs ->
  paint_row d xs y0 s px py = cell_colour d y0 x0.
Proof.
  intros Hin. revert s. induction xs as [|x xs IH]; intros s Hx0.
  - by apply elem_of_nil in Hx0.
  - change (paint_row d (x :: xs) y0 s)
      with (paint_row d xs y0 (paint_cell d y0 x s)).
    destruct (decide (x0 ∈ xs)) as [Hlater|Hnot].
    + by apply IH.
    + apply elem_of_cons in Hx0 as [->|Hlater]; [|contradiction].
      rewrite (paint_row_miss d xs y0 x y0) by (exact Hin || by left).
      by apply paint_cell_same.
Qed.

Lemma paint_miss d ys xs x0 y0 s px py :
  in_block x0 y0 px py -> y0 ∉ ys ->
  paint d ys xs s px py = s px py.
Proof.
  intros Hin. revert s. induction ys as [|y ys IH]; intros s Hmiss.
  - reflexivity.
  - change (paint d (y :: ys) xs s) with (paint d ys xs (paint_row d xs y s)).
    rewrite IH by (intros Hy; apply Hmiss; by right).
    apply (paint_row_miss d xs y x0 y0); [exact Hin|].
    right. intros ->. apply Hmiss. left.
Qed.

Lemma paint_hit d ys xs x0 y0 s px py :
  in_block x0 y0 px py -> x0 ∈ xs -> y0 ∈ ys ->
  paint d ys xs s px py = cell_colour d y0 x0.
Proof.
  intros Hin Hx0. revert s. induction ys as [|y ys IH]; intros s Hy0.
  - by apply elem_of_nil in Hy0.
  - change (paint d (y :: ys) xs s) with (paint d ys xs (paint_row d xs y s)).
    destruct (decide (y0 ∈ ys)) as [Hlater|Hnot].
    + by apply IH.
    + apply elem_of_cons in Hy0 as [->|Hlater]; [|contradiction].
      rewrite (paint_miss d ys xs x0 y) by assumption.
      by apply paint_row_hit.
Qed.

Lemma paint_pixel d s x y px py v :
  (x < 64)%nat -> (y < 32)%nat -> in_block x y px py ->
  d !! (y * 64 + x)%nat = Some v ->
  paint d (seq 0 32) (seq 0 64) s px py = if v =? 1 then WHITE else BLACK.
Proof.
  intros Hx Hy Hin Hv.
  rewrite (paint_hit _ _ _ x y) by (exact Hin || (apply elem_of_seq; lia)).
  unfold cell_colour. by rewrite Hv.
Qed.

(** The loops of [draw_display] run to the end on a framebuffer that is
    long enough, touch nothing but the surface and make no outside call. *)
Lemma draw_row_run (g : EmulatorGUI) (y : nat) (xs : list nat) :
  (forall x, x ∈ xs -> (y * 64 + x < length (display (chip8 g)))%nat) ->
  for_each xs (fun x => draw_cell y x) g =
  mkRun (Normal tt)
        (set_screen (paint_row (display (chip8 g)) xs y (screen g)) g) [].
Proof.
  revert g. induction xs as [|x xs IH]; intros g Hlen.
  - simpl. unfold ret. by rewrite set_screen_same.
  - assert (Hx : is_Some (display (chip8 g) !! (y * 64 + x)%nat)).
    { apply lookup_lt_is_Some. apply Hlen. left. }
    destruct Hx as [v Hv].
    assert (Hcell : draw_cell y x g =
                    mkRun (Normal tt)
                          (set_screen (paint_cell (display (chip8 g)) y x
                                                  (screen g)) g) []).
    { unfold draw_cell, bind, get. simpl. rewrite Hv. simpl.
      unfold paint_cell, cell_colour. rewrite Hv. reflexivity. }
    simpl. rewrite (bind_normal _ _ _ _ _ _ Hcell).
    rewrite IH by (intros x' Hx'; apply Hlen; by right).
    reflexivity.
Qed.

Lemma draw_rows_run (g : EmulatorGUI) (ys : list nat) :
  (forall y x, y ∈ ys -> x ∈ seq 0 64 ->
               (y * 64 + x < length (display (chip8 g)))%nat) ->
  for_each ys (fun y => for_each (seq 0 64) (fun x => draw_cell y x)) g =
  mkRun (Normal tt)
        (set_screen (paint (display (chip8 g)) ys (seq 0 64) (screen g)) g) [].
Proof.
  revert g. induction ys as [|y ys IH]; intros g Hlen.
  - simpl. unfold ret. by rewrite set_screen_same.
  - assert (Hrow := draw_row_run g y (seq 0 64)
                      (fun x Hx => Hlen y x ltac:(left) Hx)).
    cbn [for_each]. rewrite (bind_normal _ _ _ _ _ _ Hrow).
    rewrite IH by (intros y' x' Hy' Hx'; apply Hlen; [by right|done]).
    reflexivity.
Qed.

Lemma draw_display_run (g : EmulatorGUI) :
  (2048 <= length (display (chip8 g)))%nat ->
  draw_display g =
  mkRun (Normal tt)
        (set_screen (paint (display (chip8 g)) (seq 0 32) (seq 0 64) (screen g))
                    g) [].
Proof.
  intros Hlen. unfold draw_display. apply draw_rows_run.
  intros y x Hy%elem_of_seq Hx%elem_of_seq. lia.
Qed.

(** C7.  [draw_display] reads the framebuffer row-major: for every cell
    (x, y) with x in 0..63 and y in 0..31, every pixel of the 10x10 block
    with top-left corner (10*x, 10*y) ends up white when framebuffer element
    y*64+x is 1 and black when it is anything else.  The framebuffer holds
    its 2048 elements. *)
Theorem draw_display_paints_blocks (g : EmulatorGUI) :
  (2048 <= length (display (chip8 g)))%nat ->
  outcome (draw_display g) = Normal tt /\
  forall x y px py,
    (x < 64)%nat -> (y < 32)%nat -> in_block x y px py ->
    exists v,
      display (chip8 g) !! (y * 64 + x)%nat = Some v /\
      screen (final (draw_display g)) px py
      = if v =? 1 then WHITE else BLACK.
Proof.
  intros Hlen. rewrite (draw_display_run g Hlen). split; [reflexivity|].
  intros x y px py Hx Hy Hin.
  destruct (lookup_lt_is_Some_2 (display (chip8 g)) (y * 64 + x)) as [v Hv];
    [lia|].
  exists v. split; [exact Hv|]. cbn [final screen set_screen].
  by apply (paint_pixel _ _ x y).
Qed.

Lemma draw_display_paints_blocks_witness :
  screen (final (draw_display one_pixel_lit)) 15%nat 12%nat = WHITE /\
  screen (final (draw_display one_pixel_lit)) 25%nat 12%nat = BLACK.
Proof.
  assert (Hlen : (2048 <= length (display (chip8 one_pixel_lit)))%nat)
    by (vm_compute; lia).
  destruct (draw_display_paints_blocks one_pixel_lit Hlen) as [_ Hpix].
  split.
  - destruct (Hpix 1%nat 1%nat 15%nat 12%nat) as (v & Hv & ->);
      [lia | lia | unfold in_block; lia |].
    vm_compute in Hv. injection Hv as <-. reflexivity.
  - destruct (Hpix 2%nat 1%nat 25%nat 12%nat) as (v & Hv & ->);
      [lia | lia | unfold in_block; lia |].
    vm_compute in Hv. injection Hv as <-. reflexivity.
Defined.

(** ** One pass of the emulation loop *)

Lemma bind_outcome {A B} (m : Host A) (k : A -> Host B) g :
  outcome (bind m k g) =
  match outcome (m g) with
  | Normal a => outcome (k a (final (m g)))
  | Returned => Returned
  | Uncaught e => Uncaught e
  end.
Proof.
  unfold bind. destruct (m g) as [[a| |e] g1 tr1]; simpl; [|reflexivity..].
  by destruct (k a g1).
Qed.

Lemma bind_effects {A B} (m : Host A) (k : A -> Host B) g :
  effects (bind m k g) =
  effects (m g) ++
  match outcome (m g) with
  | Normal a => effects (k a (final (m g)))
  | _ => []
  end.
Proof.
  unfold bind. destruct (m g) as [[a| |e] g1 tr1]; simpl;
    [|by rewrite app_nil_r..].
  by destruct (k a g1).
Qed.

Lemma bind_final {A B} (m : Host A) (k : A -> Host B) g :
  final (bind m k g) =
  match outcome (m g) with
  | Normal a => final (k a (final (m g)))
  | _ => final (m g)
  end.
Proof.
  unfold bind. destruct (m g) as [[a| |e] g1 tr1]; simpl; [|reflexivity..].
  by destruct (k a g1).
Qed.

Lemma count_app p tr1 tr2 : count p (tr1 ++ tr2) = (count p tr1 + count p tr2)%nat.
Proof. unfold count. by rewrite List.filter_app, length_app. Qed.

Lemma filter_replicate_true (p : Effect -> bool) e n :
  p e = true -> List.filter p (replicate n e) = replicate n e.
Proof. intros Hp. induction n as [|n IH]; simpl; [done|]. by rewrite Hp, IH. Qed.

Lemma filter_replicate_false (p : Effect -> bool) e n :
  p e = false -> List.filter p (replicate n e) = [].
Proof. intros Hp. induction n as [|n IH]; simpl; [done|]. by rewrite Hp. Qed.

Lemma count_none p tr : Forall (fun e => p e = false) tr -> count p tr = 0%nat.
Proof.
  unfold count. induction 1 as [|e tr He _ IH]; simpl; [done|]. by rewrite He.
Qed.

Lemma split_after_prefix {A} (l1 l2 pre post : list A) (e : A) :
  l1 ++ l2 = pre ++ e :: post -> ~ In e l1 ->
  exists pre', pre = l1 ++ pre' /\ l2 = pre' ++ e :: post.
Proof.
  revert pre. induction l1 as [|a l1 IH]; intros pre Heq Hnot.
  - exists pre. by split.
  - destruct pre as [|a' pre]; simpl in Heq.
    + injection Heq as -> _. exfalso. apply Hnot. by left.
    + injection Heq as -> Heq.
      destruct (IH pre Heq) as (pre' & -> & ->).
      * intros Hin. apply Hnot. by right.
      * by exists pre'.
Qed.

Lemma for_each_silent {A} (xs : list A) (body : A -> Host unit) :
  (forall x g, effects (body x g) = []) ->
  forall g, effects (for_each xs body g) = [].
Proof.
  intros Hb. induction xs as [|x xs IH]; intros g; simpl; [done|].
  rewrite bind_effects, Hb. destruct (outcome (body x g)); simpl; auto.
Qed.

Lemma for_each_chip8_same {A} (xs : list A) (body : A -> Host unit) :
  (forall x g, chip8 (final (body x g)) = chip8 g) ->
  forall g, chip8 (final (for_each xs body g)) = chip8 g.
Proof.
  intros Hb. induction xs as [|x xs IH]; intros g; simpl; [done|].
  rewrite bind_final. destruct (outcome (body x g)); [|apply Hb..].
  by rewrite IH.
Qed.

Lemma draw_cell_effects y x g : effects (draw_cell y x g) = [].
Proof.
  unfold draw_cell, bind, get. simpl.
  destruct (display (chip8 g) !! (y * 64 + x)%nat); reflexivity.
Qed.

Lemma draw_cell_chip8 y x g : chip8 (final (draw_cell y x g)) = chip8 g.
Proof.
  unfold draw_cell, bind, get. simpl.
  destruct (display (chip8 g) !! (y * 64 + x)%nat); reflexivity.
Qed.

Lemma draw_display_effects g : effects (draw_display g) = [].
Proof.
  unfold draw_display. apply for_each_silent. intros y g'.
  apply for_each_silent. intros x g''. apply draw_cell_effects.
Qed.

Lemma draw_display_chip8 g : chip8 (final (draw_display g)) = chip8 g.
Proof.
  unfold draw_display. apply for_each_chip8_same. intros y g'.
  apply for_each_chip8_same. intros x g''. apply draw_cell_chip8.
Qed.

Section Loop.
Context `{Chip8Core}.

Lemma quit_and_return (g : EmulatorGUI) :
  (quit_emulator ;; return_) g =
  mkRun (@Returned unit) (set_running false g)
        [PygameQuit; RootQuit; RootDestroy].
Proof. reflexivity. Qed.

Lemma handle_events_run (f : Frame) (g : EmulatorGUI) (c0 : Chip8) :
  has_quit (events f) = false ->
  call_each (fun _ => Chip8_handle_input (keyboard f)) (events f) (chip8 g)
  = Ok c0 ->
  handle_events f g =
  mkRun (Normal tt) (set_chip8 c0 g)
        (replicate (length (events f)) CallHandleInput).
Proof.
  unfold handle_events, has_quit. destruct f as [evs kb rnd]. simpl.
  revert g. induction evs as [|ev evs IH]; intros g Hq Hc; simpl in *.
  - injection Hc as <-. unfold ret. by rewrite set_chip8_same.
  - destruct ev as [|ty]; simpl in *; [discriminate|].
    destruct (Chip8_handle_input kb (chip8 g)) as [c'|e c'] eqn:Hm;
      [|discriminate].
    rewrite (bind_normal _ _ _ _ _ _ (call_chip8_ok CallHandleInput _ _ _ Hm)).
    rewrite (IH (set_chip8 c' g) Hq Hc). reflexivity.
Qed.

Lemma emulate_cycles_run (f : Frame) (g : EmulatorGUI) (c1 : Chip8) :
  call_each (fun i => Chip8_emulate_cycle (random f i)) (seq 0 10) (chip8 g)
  = Ok c1 ->
  emulate_cycles f g =
  mkRun (Normal tt) (set_chip8 c1 g) (replicate 10 CallEmulateCycle).
Proof.
  intros Hc. unfold emulate_cycles.
  rewrite (for_each_call_ok CallEmulateCycle _ _ _ _ Hc). reflexivity.
Qed.

Lemma update_display_idle (g : EmulatorGUI) :
  draw_flag (chip8 g) = false -> update_display g = mkRun (Normal tt) g [].
Proof.
  intros Hflag. unfold update_display.
  rewrite (bind_normal get _ g g g []) by reflexivity.
  cbn beta. rewrite Hflag. reflexivity.
Qed.

Lemma update_display_repaint (g : EmulatorGUI) :
  draw_flag (chip8 g) = true ->
  (2048 <= length (display (chip8 g)))%nat ->
  update_display g =
  mkRun (Normal tt)
        (set_chip8 (set_draw_flag false (chip8 g))
           (set_screen (paint (display (chip8 g)) (seq 0 32) (seq 0 64)
                              (fun _ _ => BLACK)) g))
        [ScreenFill BLACK; DisplayFlip].
Proof.
  intros Hflag Hlen. unfold update_display.
  rewrite (bind_normal get _ g g g []) by reflexivity.
  cbn beta. rewrite Hflag.
  rewrite (bind_normal (emit (ScreenFill BLACK)) _ g tt g [ScreenFill BLACK])
    by reflexivity.
  rewrite (bind_normal (modify _) _ g tt
             (set_screen (fun _ _ => BLACK) g) []) by reflexivity.
  rewrite (bind_normal draw_display _ _ _ _ _
             (draw_display_run (set_screen (fun _ _ => BLACK) g) Hlen)).
  reflexivity.
Qed.

(** A pass through the running branch that meets no QUIT event and whose
    interpreter calls all return: what it leaves and what it called. *)
Lemma loop_body_run (f : Frame) (g : EmulatorGUI) (c1 : Chip8) :
  rom_loaded g = true -> paused g = false ->
  has_quit (events f) = false ->
  drive f (chip8 g) = Ok c1 ->
  (draw_flag c1 = true -> (2048 <= length (display c1))%nat) ->
  emulation_loop_body f g =
  mkRun (Normal tt)
        (if draw_flag c1
         then set_chip8 (set_draw_flag false c1)
                (set_screen (paint (display c1) (seq 0 32) (seq 0 64)
                                   (fun _ _ => BLACK)) g)
         else set_chip8 c1 g)
        (replicate (length (events f)) CallHandleInput
         ++ replicate 10 CallEmulateCycle
         ++ (if draw_flag c1 then [ScreenFill BLACK; DisplayFlip] else [])
         ++ [ClockTick 60]).
Proof.
  intros Hrom Hpaused Hq Hdrive Hlen. unfold emulation_loop_body.
  rewrite (bind_normal get _ g g g []) by reflexivity.
  cbn beta. rewrite Hrom, Hpaused. cbn [andb negb].
  unfold drive in Hdrive.
  destruct (call_each _ (events f) (chip8 g)) as [c0|e c0] eqn:Hev;
    [|discriminate].
  rewrite (bind_normal _ _ _ _ _ _ (handle_events_run f g c0 Hq Hev)).
  rewrite (bind_normal _ _ _ _ _ _
             (emulate_cycles_run f (set_chip8 c0 g) c1 Hdrive)).
  destruct (draw_flag c1) eqn:Hflag.
  - rewrite (bind_normal _ _ _ _ _ _
               (update_display_repaint (set_chip8 c1 (set_chip8 c0 g))
                                       Hflag (Hlen eq_refl))).
    reflexivity.
  - rewrite (bind_normal _ _ _ _ _ _
               (update_display_idle (set_chip8 c1 (set_chip8 c0 g)) Hflag)).
    reflexivity.
Qed.

(** What the blocks of a pass call, however they end. *)
Lemma handle_events_effects (f : Frame) (g : EmulatorGUI) :
  Forall (fun e => is_cycle_call e = false /\ is_display_update e = false)
         (effects (handle_events f g)).
Proof.
  unfold handle_events. destruct f as [evs kb rnd]. cbn [events keyboard].
  revert g. induction evs as [|ev evs IH]; intros g; cbn [for_each].
  - constructor.
  - rewrite bind_effects. apply Forall_app. split.
    + destruct ev; cbn [is_quit].
      * rewrite quit_and_return. repeat constructor.
      * unfold call_chip8. destruct (Chip8_handle_input kb (chip8 g));
          repeat constructor.
    + match goal with |- context [outcome ?r] => destruct (outcome r) end;
        [apply IH | constructor | constructor].
Qed.

Lemma emulate_cycles_effects (f : Frame) (g : EmulatorGUI) :
  exists k, effects (emulate_cycles f g) = replicate k CallEmulateCycle /\
            (outcome (emulate_cycles f g) = Normal tt -> k = 10%nat).
Proof.
  unfold emulate_cycles.
  destruct (call_each (fun i => Chip8_emulate_cycle (random f i)) (seq 0 10)
                      (chip8 g)) as [c1|e c1] eqn:Hc.
  - rewrite (for_each_call_ok CallEmulateCycle _ _ _ _ Hc). by exists 10%nat.
  - destruct (for_each_call_raises CallEmulateCycle _ _ _ _ _ Hc)
      as (k & _ & ->).
    exists k. split; [reflexivity|discriminate].
Qed.

Lemma update_display_effects (g : EmulatorGUI) :
  Forall (fun e => is_cycle_call e = false) (effects (update_display g)).
Proof.
  unfold update_display.
  rewrite (bind_normal get _ g g g []) by reflexivity.
  cbn beta. destruct (draw_flag (chip8 g)); [|constructor].
  cbn [effects app].
  rewrite (bind_normal (emit (ScreenFill BLACK)) _ g tt g [ScreenFill BLACK])
    by reflexivity.
  rewrite (bind_normal (modify _) _ g tt
             (set_screen (fun _ _ => BLACK) g) []) by reflexivity.
  cbn [effects app]. constructor; [reflexivity|].
  rewrite bind_effects, draw_display_effects.
  destruct (outcome (draw_display _)); repeat constructor.
Qed.

(** The calls of any pass through the running branch: first those of the
    event block, then [k] cycles, then those of the display block and of
    the frame clock, which are only reached after 10 cycles. *)
Lemma running_pass_shape (f : Frame) (g : EmulatorGUI) :
  rom_loaded g = true -> paused g = false ->
  exists E1 k E3,
    effects (emulation_loop_body f g)
    = E1 ++ replicate k CallEmulateCycle ++ E3 /\
    Forall (fun e => is_cycle_call e = false /\ is_display_update e = false) E1 /\
    Forall (fun e => is_cycle_call e = false) E3 /\
    (E3 <> [] -> k = 10%nat) /\
    (outcome (emulation_loop_body f g) = Normal tt -> k = 10%nat).
Proof.
  intros Hrom Hpaused. unfold emulation_loop_body.
  rewrite (bind_normal get _ g g g []) by reflexivity.
  cbn beta. rewrite Hrom, Hpaused. cbn [andb negb outcome effects app].
  rewrite bind_effects, bind_outcome.
  exists (effects (handle_events f g)).
  pose proof (handle_events_effects f g) as H1.
  destruct (outcome (handle_events f g)) as [[]| |e1].
  - rewrite bind_effects, bind_outcome.
    destruct (emulate_cycles_effects f (final (handle_events f g)))
      as (k & Hk & Hk10).
    rewrite Hk. exists k.
    destruct (outcome (emulate_cycles f (final (handle_events f g))))
      as [[]| |e2].
    + eexists. split; [reflexivity|]. split; [exact H1|].
      split; [|by split; intros; apply Hk10].
      rewrite bind_effects. apply Forall_app. split.
      * apply update_display_effects.
      * destruct (outcome (update_display _)); repeat constructor.
    + exists []. repeat split; try done; by constructor.
    + exists []. repeat split; try done; by constructor.
  - exists 0%nat, []. repeat split; try done; by constructor.
  - exists 0%nat, []. repeat split; try done; by constructor.
Qed.

(** C6.  A pass through the running branch that gets to the display step
    (no QUIT event, every interpreter call returns, leaving the interpreter
    [c1] with its 2048-element framebuffer) repaints the display exactly
    when the draw flag of [c1] is true: then it fills the screen, paints
    every block from the framebuffer and flips; when the flag is false it
    makes no display call and the screen is as it was.  Either way the draw
    flag is false afterwards and nothing else of [c1] is changed. *)
Theorem display_repainted_iff_draw_flag
    (f : Frame) (g : EmulatorGUI) (c1 : Chip8) :
  rom_loaded g = true -> paused g = false ->
  has_quit (events f) = false ->
  drive f (chip8 g) = Ok c1 ->
  (2048 <= length (display c1))%nat ->
  let r := emulation_loop_body f g in
  outcome r = Normal tt /\
  List.filter is_display_update (effects r)
  = (if draw_flag c1 then [ScreenFill BLACK; DisplayFlip] else []) /\
  (In DisplayFlip (effects r) <-> draw_flag c1 = true) /\
  (draw_flag c1 = true ->
   forall x y px py,
     (x < 64)%nat -> (y < 32)%nat -> in_block x y px py ->
     exists v, display c1 !! (y * 64 + x)%nat = Some v /\
               screen (final r) px py = if v =? 1 then WHITE else BLACK) /\
  (draw_flag c1 = false -> screen (final r) = screen g) /\
  chip8 (final r) = set_draw_flag false c1.
Proof.
  intros Hrom Hpaused Hq Hdrive Hlen r. subst r.
  rewrite (loop_body_run f g c1 Hrom Hpaused Hq Hdrive (fun _ => Hlen)).
  cbn [outcome final effects].
  assert (Hupd : List.filter is_display_update
            (replicate (length (events f)) CallHandleInput
             ++ replicate 10 CallEmulateCycle
             ++ (if draw_flag c1 then [ScreenFill BLACK; DisplayFlip] else [])
             ++ [ClockTick 60])
          = (if draw_flag c1 then [ScreenFill BLACK; DisplayFlip] else [])).
  { rewrite !List.filter_app, !filter_replicate_false by reflexivity.
    destruct (draw_flag c1); reflexivity. }
  split; [reflexivity|]. split; [exact Hupd|]. split.
  { split.
    - intros Hin.
      assert (Hin' : In DisplayFlip (List.filter is_display_update
                (replicate (length (events f)) CallHandleInput
                 ++ replicate 10 CallEmulateCycle
                 ++ (if draw_flag c1 then [ScreenFill BLACK; DisplayFlip]
                     else [])
                 ++ [ClockTick 60])))
        by (apply List.filter_In; split; [exact Hin|reflexivity]).
      rewrite Hupd in Hin'. destruct (draw_flag c1); [reflexivity|].
      destruct Hin'.
    - intros Hflag. rewrite Hflag.
      apply List.in_or_app. right. apply List.in_or_app. right.
      simpl. auto. }
  split; [|split].
  - intros Hflag x y px py Hx Hy Hin. rewrite Hflag.
    destruct (lookup_lt_is_Some_2 (display c1) (y * 64 + x)) as [v Hv]; [lia|].
    exists v. split; [exact Hv|]. cbn [screen set_chip8 set_screen].
    by apply (paint_pixel _ _ x y).
  - intros Hflag. rewrite Hflag. reflexivity.
  - destruct (draw_flag c1) eqn:Hflag; cbn [chip8 set_chip8]; [reflexivity|].
    rewrite <- Hflag. by rewrite set_draw_flag_same.
Qed.

(** C3, as the host has it.  A pass through the running branch that gets
    to its end makes no interpreter call besides [handle_input] (once per
    pending event) and [emulate_cycle] (10 times), and paces the frame with
    one [clock.tick(60)]: the delay and sound timers it leaves are those the
    last [emulate_cycle] left, the host never advances them itself. *)
Theorem timers_follow_interpreter_calls
    (f : Frame) (g : EmulatorGUI) (c1 : Chip8) :
  rom_loaded g = true -> paused g = false ->
  has_quit (events f) = false ->
  drive f (chip8 g) = Ok c1 ->
  (2048 <= length (display c1))%nat ->
  let r := emulation_loop_body f g in
  outcome r = Normal tt /\
  delay_timer (chip8 (final r)) = delay_timer c1 /\
  sound_timer (chip8 (final r)) = sound_timer c1 /\
  List.filter is_chip8_call (effects r)
  = replicate (length (events f)) CallHandleInput
    ++ replicate 10 CallEmulateCycle /\
  List.filter is_clock_tick (effects r) = [ClockTick 60].
Proof.
  intros Hrom Hpaused Hq Hdrive Hlen r. subst r.
  rewrite (loop_body_run f g c1 Hrom Hpaused Hq Hdrive (fun _ => Hlen)).
  cbn [outcome final effects].
  split; [reflexivity|].
  split; [destruct (draw_flag c1); reflexivity|].
  split; [destruct (draw_flag c1); reflexivity|].
  split.
  - rewrite !List.filter_app, !filter_replicate_true by reflexivity.
    destruct (draw_flag c1); simpl; by rewrite ?app_nil_r.
  - rewrite !List.filter_app, !filter_replicate_false by reflexivity.
    destruct (draw_flag c1); reflexivity.
Qed.

(** *** The idle branch *)

Lemma for_each_effects {A} (P : Effect -> Prop) (xs : list A)
    (body : A -> Host unit) :
  (forall x g, Forall P (effects (body x g))) ->
  forall g, Forall P (effects (for_each xs body g)).
Proof.
  intros Hb. induction xs as [|x xs IH]; intros g; cbn [for_each].
  - constructor.
  - rewrite bind_effects. apply Forall_app. split; [apply Hb|].
    destruct (outcome (body x g)); [apply IH|constructor..].
Qed.

Lemma handle_events_paused_chip8 (f : Frame) (g : EmulatorGUI) :
  chip8 (final (handle_events_paused f g)) = chip8 g.
Proof.
  unfold handle_events_paused. apply for_each_chip8_same.
  intros [|ty] g'; reflexivity.
Qed.

Lemma handle_events_paused_effects (f : Frame) (g : EmulatorGUI) :
  Forall (fun e => is_chip8_call e = false)
         (effects (handle_events_paused f g)).
Proof.
  unfold handle_events_paused. apply for_each_effects.
  intros [|ty] g'; cbn [is_quit].
  - rewrite quit_and_return. repeat constructor.
  - constructor.
Qed.

(** C9.  When the emulator is paused or no ROM is loaded, a pass of the
    loop makes no call on the interpreter (no cycle, no input poll, nothing
    that could advance a timer) and leaves the interpreter object exactly as
    it was: registers, PC, stack, memory, framebuffer, draw flag, timers and
    key state. *)
Theorem idle_pass_leaves_interpreter (f : Frame) (g : EmulatorGUI) :
  paused g = true \/ rom_loaded g = false ->
  let r := emulation_loop_body f g in
  chip8 (final r) = chip8 g /\
  Forall (fun e => is_chip8_call e = false) (effects r) /\
  count is_cycle_call (effects r) = 0%nat.
Proof.
  intros Hidle r. subst r. unfold emulation_loop_body.
  rewrite (bind_normal get _ g g g []) by reflexivity.
  cbn beta.
  assert (Hcond : rom_loaded g && negb (paused g) = false)
    by (destruct Hidle as [-> | ->]; [apply andb_false_r|reflexivity]).
  rewrite Hcond. cbn [final effects app].
  assert (Hcalls : Forall (fun e => is_chip8_call e = false)
                     (effects ((handle_events_paused f ;; emit TimeSleep) g))).
  { rewrite bind_effects. apply Forall_app. split.
    - apply handle_events_paused_effects.
    - destruct (outcome (handle_events_paused f g)); repeat constructor. }
  split; [|split].
  - rewrite bind_final.
    destruct (outcome (handle_events_paused f g));
      apply handle_events_paused_chip8.
  - exact Hcalls.
  - apply count_none. eapply Forall_impl; [exact Hcalls|].
    intros [] He; try reflexivity; discriminate.
Qed.

(** *** Loading *)

Lemma load_rom_cancelled (fs : FileSystem) (g : EmulatorGUI) :
  load_rom fs "" g = mkRun (Normal tt) g [].
Proof. reflexivity. Qed.

Lemma load_rom_success (fs : FileSystem) (filename : string)
    (g : EmulatorGUI) (c : Chip8) :
  filename <> "" ->
  Chip8_load_rom fs filename Chip8_new = Ok c ->
  load_rom fs filename g =
  mkRun (Normal tt)
        (set_status_label (mkLabel ("Running: " +:+ basename filename) "green")
           (set_paused false (set_rom_loaded true (set_chip8 c g))))
        [CallChip8; CallLoadRom filename].
Proof.
  intros Hname Hload. unfold load_rom.
  apply String.eqb_neq in Hname. rewrite Hname. cbn [negb].
  unfold try_except, bind, emit, modify, call_chip8. simpl.
  rewrite Hload. reflexivity.
Qed.

Lemma load_rom_failure (fs : FileSystem) (filename : string)
    (g : EmulatorGUI) (e : Exn) (c' : Chip8) :
  filename <> "" ->
  Chip8_load_rom fs filename Chip8_new = Raises e c' ->
  load_rom fs filename g =
  mkRun (Normal tt) (set_chip8 c' g)
        [CallChip8; CallLoadRom filename;
         ShowError "Error" "Failed to load ROM: " e].
Proof.
  intros Hname Hload. unfold load_rom.
  apply String.eqb_neq in Hname. rewrite Hname. cbn [negb].
  unfold try_except, bind, emit, modify, call_chip8. simpl.
  rewrite Hload. reflexivity.
Qed.

(** C1, as the host has it.  A load that fails is caught and reported in an
    error dialog, and leaves [rom_loaded], [paused], [running], the screen
    and the status label as they were; the interpreter however is no longer
    the one from before the attempt: it is the new instance the host made
    for this load, as the failed loader call left it.  Only a cancelled
    file dialog changes nothing at all. *)
Theorem failed_load_keeps_flags_not_interpreter
    (fs : FileSystem) (filename : string) (g : EmulatorGUI)
    (e : Exn) (c' : Chip8) :
  filename <> "" ->
  Chip8_load_rom fs filename Chip8_new = Raises e c' ->
  let r := load_rom fs filename g in
  outcome r = Normal tt /\
  effects r = [CallChip8; CallLoadRom filename;
               ShowError "Error" "Failed to load ROM: " e] /\
  rom_loaded (final r) = rom_loaded g /\
  paused (final r) = paused g /\
  running (final r) = running g /\
  screen (final r) = screen g /\
  status_label (final r) = status_label g /\
  chip8 (final r) = c' /\
  load_rom fs "" g = mkRun (Normal tt) g [].
Proof.
  intros Hname Hload r. subst r.
  rewrite (load_rom_failure fs filename g e c' Hname Hload).
  repeat split; reflexivity.
Qed.

(** *** Commands *)


Lemma flip_and_clear_final (g : EmulatorGUI) :
  final ((emit DisplayFlip ;; modify_chip8 (set_draw_flag false)) g)
  = set_chip8 (set_draw_flag false (chip8 g)) g.
Proof. reflexivity. Qed.

Lemma reset_run (g : EmulatorGUI) :
  reset g =
  mkRun (Normal tt)
        (if rom_loaded g
         then set_chip8
                (mkChip8 (memory (chip8 g)) (replicate 16 0) 0 0x200 [] 0 0
                         (replicate (DISPLAY_WIDTH * DISPLAY_HEIGHT) 0) true
                         (keys (chip8 g)) (mode (chip8 g))) g
         else g) [].
Proof.
  unfold reset, bind, get. cbn [outcome final effects].
  destruct (rom_loaded g); reflexivity.
Qed.


(** *** Faults of the interpreter inside the loop *)

(** The loop has no [try]: when an [emulate_cycle] call raises, the pass
    ends there with the exception propagating, nothing is shown, and the
    loop itself ends the same way. *)
Lemma cycle_fault_propagates (f : Frame) (g : EmulatorGUI)
    (c0 c2 : Chip8) (e : Exn) :
  rom_loaded g = true -> paused g = false ->
  has_quit (events f) = false ->
  call_each (fun _ => Chip8_handle_input (keyboard f)) (events f) (chip8 g)
  = Ok c0 ->
  call_each (fun i => Chip8_emulate_cycle (random f i)) (seq 0 10) c0
  = Raises e c2 ->
  exists k,
    emulation_loop_body f g =
    mkRun (Uncaught e) (set_chip8 c2 g)
          (replicate (length (events f)) CallHandleInput
           ++ replicate k CallEmulateCycle).
Proof.
  intros Hrom Hpaused Hq Hev Hcyc. unfold emulation_loop_body.
  rewrite (bind_normal get _ g g g []) by reflexivity.
  cbn beta. rewrite Hrom, Hpaused. cbn [andb negb].
  rewrite (bind_normal _ _ _ _ _ _ (handle_events_run f g c0 Hq Hev)).
  unfold emulate_cycles.
  destruct (for_each_call_raises CallEmulateCycle _ _ (set_chip8 c0 g) _ _ Hcyc)
    as (k & _ & Hrun).
  rewrite (bind_uncaught _ _ _ _ _ _ Hrun).
  exists k. reflexivity.
Qed.

End Loop.

Lemma display_repainted_iff_draw_flag_witness :
  let r := emulation_loop_body key_frame timer_loaded in
  outcome r = Normal tt /\
  In DisplayFlip (effects r) /\
  draw_flag timer_driven = true /\
  draw_flag (chip8 (final r)) = false /\
  screen (final r) 15%nat 12%nat = BLACK.
Proof.
  assert (Hrom : rom_loaded timer_loaded = true) by reflexivity.
  assert (Hpaused : paused timer_loaded = false) by reflexivity.
  assert (Hq : has_quit (events key_frame) = false) by reflexivity.
  assert (Hdrive : drive key_frame (chip8 timer_loaded) = Ok timer_driven)
    by (vm_compute; reflexivity).
  assert (Hlen : (2048 <= length (display timer_driven))%nat)
    by (vm_compute; lia).
  assert (Hflag : draw_flag timer_driven = true) by (vm_compute; reflexivity).
  destruct (display_repainted_iff_draw_flag key_frame timer_loaded timer_driven
              Hrom Hpaused Hq Hdrive Hlen)
    as (Hout & _ & Hflip & Hpix & _ & Hchip).
  split; [exact Hout|]. split; [exact (proj2 Hflip Hflag)|].
  split; [exact Hflag|].
  split; [by rewrite Hchip|].
  destruct (Hpix Hflag 1%nat 1%nat 15%nat 12%nat) as (v & Hv & ->);
    [lia | lia | unfold in_block; lia |].
  vm_compute in Hv. injection Hv as <-. reflexivity.
Defined.

Lemma timers_follow_interpreter_calls_witness :
  let r := emulation_loop_body key_frame timer_loaded in
  outcome r = Normal tt /\
  delay_timer (chip8 (final r)) = 5 /\
  List.filter is_chip8_call (effects r)
  = CallHandleInput :: replicate 10 CallEmulateCycle /\
  List.filter is_clock_tick (effects r) = [ClockTick 60].
Proof.
  assert (Hrom : rom_loaded timer_loaded = true) by reflexivity.
  assert (Hpaused : paused timer_loaded = false) by reflexivity.
  assert (Hq : has_quit (events key_frame) = false) by reflexivity.
  assert (Hdrive : drive key_frame (chip8 timer_loaded) = Ok timer_driven)
    by (vm_compute; reflexivity).
  assert (Hlen : (2048 <= length (display timer_driven))%nat)
    by (vm_compute; lia).
  destruct (timers_follow_interpreter_calls key_frame timer_loaded timer_driven
              Hrom Hpaused Hq Hdrive Hlen)
    as (Hout & Hdelay & _ & Hcalls & Htick).
  split; [exact Hout|]. split; [rewrite Hdelay; vm_compute; reflexivity|].
  split; [exact Hcalls | exact Htick].
Defined.

(** C3, counterexample.  With the core of the specification, the timer
    program has set the delay timer to 5 in its first pass; the next pass
    through the running branch runs to its end and leaves it at 5, where one
    timer tick would leave 4. *)
Lemma timers_not_advanced_by_one_tick :
  let r := emulation_loop_body quiet_frame timer_started in
  rom_loaded timer_started = true /\ paused timer_started = false /\
  outcome r = Normal tt /\
  delay_timer (chip8 timer_started) = 5 /\
  delay_timer (chip8 (final r)) = 5 /\
  delay_timer (SpecCore.tick_timers (chip8 timer_started)) = 4.
Proof. vm_compute. repeat split; reflexivity. Qed.

Lemma idle_pass_leaves_interpreter_witness :
  chip8 (final (emulation_loop_body key_frame EmulatorGUI_new))
  = chip8 EmulatorGUI_new /\
  count is_cycle_call (effects (emulation_loop_body key_frame EmulatorGUI_new))
  = 0%nat.
Proof.
  assert (Hidle : paused EmulatorGUI_new = true
                  \/ rom_loaded EmulatorGUI_new = false)
    by (right; reflexivity).
  destruct (idle_pass_leaves_interpreter key_frame EmulatorGUI_new Hidle)
    as (Hsame & _ & Hnone).
  split; [exact Hsame | exact Hnone].
Defined.

Lemma failed_load_keeps_flags_not_interpreter_witness :
  let r := load_rom sample_files "roms/oversized.ch8" timer_started in
  outcome r = Normal tt /\
  effects r = [CallChip8; CallLoadRom "roms/oversized.ch8";
               ShowError "Error" "Failed to load ROM: " RomTooLarge] /\
  rom_loaded (final r) = rom_loaded timer_started /\
  chip8 (final r) = SpecCore.init.
Proof.
  assert (Hname : "roms/oversized.ch8" <> "") by discriminate.
  assert (Hload : Chip8_load_rom sample_files "roms/oversized.ch8" Chip8_new
                  = Raises RomTooLarge SpecCore.init)
    by (vm_compute; reflexivity).
  destruct (failed_load_keeps_flags_not_interpreter
              sample_files "roms/oversized.ch8" timer_started
              RomTooLarge SpecCore.init Hname Hload)
    as (Hout & Heff & Hrom & _ & _ & _ & _ & Hchip & _).
  split; [exact Hout|]. split; [exact Heff|]. split; [exact Hrom|exact Hchip].
Defined.

(** C1, counterexample.  The timer program was loaded and has run one pass
    (PC at 0x204, first ROM byte 0x60 at 0x200).  Loading a 3585-byte file
    then fails with [RomTooLarge]; the error is caught and shown, and the
    interpreter the host holds afterwards is not the one from before: its
    PC is 0x200 and the byte at 0x200 is 0, while [rom_loaded] is still
    true. *)
Lemma failed_load_discards_interpreter :
  let r := load_rom sample_files "roms/oversized.ch8" timer_started in
  outcome r = Normal tt /\
  In (ShowError "Error" "Failed to load ROM: " RomTooLarge) (effects r) /\
  rom_loaded (final r) = true /\
  pc (chip8 timer_started) = 0x204 /\
  pc (chip8 (final r)) = 0x200 /\
  memory (chip8 timer_started) !! 512%nat = Some 0x60 /\
  memory (chip8 (final r)) !! 512%nat = Some 0 /\
  chip8 (final r) <> chip8 timer_started.
Proof.
  cbv zeta.
  split; [vm_compute; reflexivity|].
  split; [vm_compute; auto|].
  split; [vm_compute; reflexivity|].
  split; [vm_compute; reflexivity|].
  split; [vm_compute; reflexivity|].
  split; [vm_compute; reflexivity|].
  split; [vm_compute; reflexivity|].
  intros Heq. apply (f_equal pc) in Heq. vm_compute in Heq. discriminate.
Qed.



(** ** Reset *)

(** C10.  With a ROM loaded, Reset puts stack, V registers, I, PC, both
    timers, framebuffer and draw flag back to their initial values (empty,
    sixteen 0, 0, 0x200, 0, 0, 2048 times 0, true: those of a new
    interpreter) and leaves the memory array, with ROM image and fontset,
    and the key state as they are; it calls neither the loader nor anything
    else. *)
Theorem reset_restores_all_but_memory (g : EmulatorGUI) :
  rom_loaded g = true ->
  let r := reset g in
  let c := chip8 (final r) in
  outcome r = Normal tt /\ effects r = [] /\
  stack c = [] /\ V c = replicate 16 0 /\ I c = 0 /\ pc c = 0x200 /\
  delay_timer c = 0 /\ sound_timer c = 0 /\
  display c = replicate 2048 0 /\ draw_flag c = true /\
  reset_fields c = reset_fields SpecCore.init /\
  memory c = memory (chip8 g) /\ keys c = keys (chip8 g).
Proof.
  intros Hrom r c. subst c r. rewrite reset_run, Hrom.
  repeat split; reflexivity.
Qed.

Lemma reset_restores_all_but_memory_witness :
  pc (chip8 (final (reset timer_started))) = 0x200 /\
  delay_timer (chip8 (final (reset timer_started))) = 0 /\
  memory (chip8 (final (reset timer_started))) !! 512%nat = Some 0x60.
Proof.
  assert (Hrom : rom_loaded timer_started = true) by (vm_compute; reflexivity).
  destruct (reset_restores_all_but_memory timer_started Hrom)
    as (_ & _ & _ & _ & _ & Hpc & Hdelay & _ & _ & _ & _ & Hmem & _).
  split; [exact Hpc|]. split; [exact Hdelay|].
  rewrite Hmem. vm_compute. reflexivity.
Defined.

(** ** Loading with the core of the specification *)

Lemma copy_bytes_length bytes : forall addr mem,
  length (SpecCore.copy_bytes addr bytes mem) = length mem.
Proof.
  induction bytes as [|b rest IH]; intros addr mem; simpl; [done|].
  by rewrite IH, length_insert.
Qed.

Lemma copy_bytes_below bytes : forall addr mem j,
  (j < addr)%nat -> SpecCore.copy_bytes addr bytes mem !! j = mem !! j.
Proof.
  induction bytes as [|b rest IH]; intros addr mem j Hj; simpl; [done|].
  rewrite IH by lia. apply list_lookup_insert_ne. lia.
Qed.

Lemma copy_bytes_lookup bytes : forall addr mem i b,
  (addr + length bytes <= length mem)%nat ->
  bytes !! i = Some b ->
  SpecCore.copy_bytes addr bytes mem !! (addr + i)%nat = Some b.
Proof.
  induction bytes as [|b0 rest IH]; intros addr mem i b Hfit Hi; [done|].
  simpl in Hfit. destruct i as [|i]; simpl in *.
  - injection Hi as ->. rewrite Nat.add_0_r.
    rewrite copy_bytes_below by lia.
    apply list_lookup_insert_eq. lia.
  - replace (addr + S i)%nat with (S addr + i)%nat by lia.
    apply IH; [rewrite length_insert; lia | exact Hi].
Qed.

Lemma spec_load_rom_ok (fs : FileSystem) (filename : string)
    (bytes : list Z) (c : Chip8) :
  fs filename = Some bytes -> (length bytes <= 3584)%nat ->
  Chip8_load_rom fs filename c =
  Ok (set_memory (SpecCore.copy_bytes 512 bytes (memory SpecCore.init))
                 SpecCore.init).
Proof.
  intros Hfile Hlen. change (Chip8_load_rom fs filename c)
    with (SpecCore.load_rom fs filename c).
  unfold SpecCore.load_rom, SpecCore.load. rewrite Hfile.
  destruct (Z.ltb_spec (4096 - 512) (Z.of_nat (length bytes))); [lia|].
  reflexivity.
Qed.

(** C5.  With the interpreter of the specification, loading a ROM (a file
    the dialog returned, that opens and is not too large) leaves a new
    interpreter in which every field has its initial value: stack empty, the 16 V registers 0, I = 0, PC = 0x200, both timers
    0, the 2048 framebuffer pixels 0, draw flag true; the memory is the
    initial memory with the program bytes copied in from 0x200 on.  The host
    makes the new instance first and calls its loader next. *)
Theorem load_rom_resets_then_copies
    (fs : FileSystem) (filename : string) (bytes : list Z)
    (g : EmulatorGUI) :
  filename <> "" -> fs filename = Some bytes ->
  (length bytes <= 3584)%nat ->
  let r := load_rom fs filename g in
  let c := chip8 (final r) in
  outcome r = Normal tt /\
  effects r = [CallChip8; CallLoadRom filename] /\
  stack c = [] /\ V c = replicate 16 0 /\ I c = 0 /\ pc c = 0x200 /\
  delay_timer c = 0 /\ sound_timer c = 0 /\
  display c = replicate 2048 0 /\ (length (display c) = 2048)%nat /\
  draw_flag c = true /\
  memory c = SpecCore.copy_bytes 512 bytes (memory SpecCore.init) /\
  (forall i b, bytes !! i = Some b -> memory c !! (512 + i)%nat = Some b) /\
  rom_loaded (final r) = true /\ paused (final r) = false.
Proof.
  intros Hname Hfile Hlen r c. subst c r.
  rewrite (load_rom_success fs filename g _ Hname
             (spec_load_rom_ok fs filename bytes Chip8_new Hfile Hlen)).
  cbn [outcome final effects chip8 set_status_label set_paused set_rom_loaded
       set_chip8 rom_loaded paused].
  repeat split; try reflexivity.
  intros i b Hi. cbn [memory set_memory].
  apply copy_bytes_lookup; [|exact Hi].
  change (length (memory SpecCore.init)) with 4096%nat. lia.
Qed.

Lemma load_rom_resets_then_copies_witness :
  let r := load_rom sample_files "roms/timer.ch8" timer_started in
  outcome r = Normal tt /\
  pc (chip8 (final r)) = 0x200 /\
  delay_timer (chip8 (final r)) = 0 /\
  memory (chip8 (final r)) !! 514%nat = Some 0xF0.
Proof.
  assert (Hname : "roms/timer.ch8" <> "") by discriminate.
  assert (Hfile : sample_files "roms/timer.ch8" = Some timer_rom)
    by reflexivity.
  assert (Hlen : (length timer_rom <= 3584)%nat) by (simpl; lia).
  destruct (load_rom_resets_then_copies sample_files "roms/timer.ch8"
              timer_rom timer_started Hname Hfile Hlen)
    as (Hout & _ & _ & _ & _ & Hpc & Hdelay & _ & _ & _ & _ & _ & Hbytes & _).
  split; [exact Hout|]. split; [exact Hpc|]. split; [exact Hdelay|].
  apply (Hbytes 2%nat). reflexivity.
Defined.

(** ** Interpreter faults *)

(** C2, the failing run.  A ROM whose first instruction is 00EE (return
    with an empty stack) loads; in the first pass of the loop the first
    [emulate_cycle] raises [StackUnderflow], which nothing in
    [emulation_loop] catches: the loop ends with the exception propagating
    after that single call, no error dialog is shown, and the frames that
    were still to come are never run. *)
Theorem cycle_fault_ends_emulation_loop :
  let r := emulation_loop [quiet_frame; quiet_frame; quiet_frame]
                          return_loaded in
  rom_loaded return_loaded = true /\ paused return_loaded = false /\
  outcome r = Uncaught StackUnderflow /\
  effects r = [CallEmulateCycle] /\
  running (final r) = true.
Proof. vm_compute. repeat split; reflexivity. Qed.

(** ** The core of the specification on its own test cases *)

Example add_imm_wraps_without_flag :
  let c := SpecCore.setV 0 0xFF SpecCore.init in
  exists c', SpecCore.execute 0 (SpecCore.ADD_imm 0 0x02) c = Ok c' /\
             SpecCore.getV c' 0 = 0x01 /\ SpecCore.getV c' 0xF = 0.
Proof. eexists. split; [reflexivity|]. split; reflexivity. Qed.

Example add_reg_carry :
  let c := SpecCore.setV 1 0x01 (SpecCore.setV 0 0xFF SpecCore.init) in
  exists c', SpecCore.execute 0 (SpecCore.ADD_reg 0 1) c = Ok c' /\
             SpecCore.getV c' 0 = 0x00 /\ SpecCore.getV c' 0xF = 1.
Proof. eexists. split; [reflexivity|]. split; reflexivity. Qed.

Example sub_reg_borrow :
  let c := SpecCore.setV 1 0x0A (SpecCore.setV 0 0x05 SpecCore.init) in
  exists c', SpecCore.execute 0 (SpecCore.SUB_reg 0 1) c = Ok c' /\
             SpecCore.getV c' 0 = 0xFB /\ SpecCore.getV c' 0xF = 0.
Proof. eexists. split; [reflexivity|]. split; reflexivity. Qed.

Example draw_twice_cancels :
  let c1 := SpecCore.draw_sprite 0 0 5 SpecCore.init in
  let c2 := SpecCore.draw_sprite 0 0 5 c1 in
  display c1 !! 0%nat = Some 1 /\ SpecCore.getV c1 0xF = 0 /\
  display c2 = display SpecCore.init /\ SpecCore.getV c2 0xF = 1.
Proof. vm_compute. repeat split; reflexivity. Qed.

Example call_then_return :
  exists c1 c2,
    SpecCore.execute 0 (SpecCore.CALL 0x300) (set_pc 0x202 SpecCore.init)
    = Ok c1 /\ pc c1 = 0x300 /\
    SpecCore.execute 0 SpecCore.RET c1 = Ok c2 /\ pc c2 = 0x202 /\
    SpecCore.execute 0 SpecCore.RET c2 = Raises StackUnderflow c2.
Proof. do 2 eexists. repeat split; reflexivity. Qed.

Example ticks_floor_at_zero :
  delay_timer (SpecCore.tick_timers (set_delay_timer 2 SpecCore.init)) = 1 /\
  delay_timer (SpecCore.tick_timers (SpecCore.tick_timers
    (SpecCore.tick_timers (set_delay_timer 2 SpecCore.init)))) = 0.
Proof. split; reflexivity. Qed.

Example illegal_opcode_is_reported :
  SpecCore.step 0 SpecCore.init
  = Raises (IllegalOpcode 0) (set_pc 0x202 SpecCore.init).
Proof. vm_compute. reflexivity. Qed.

(** ** More on the host: loading, Reset, Pause/Resume *)

Lemma bind_effects_forall {A B} (P : Effect -> Prop) (m : Host A)
    (k : A -> Host B) g :
  Forall P (effects (m g)) ->
  (forall a g', Forall P (effects (k a g'))) ->
  Forall P (effects (bind m k g)).
Proof.
  intros Hm Hk. rewrite bind_effects. apply Forall_app. split; [exact Hm|].
  destruct (outcome (m g)); [apply Hk|constructor..].
Qed.

Lemma bind_pass_flags {A B} (m : Host A) (k : A -> Host B) g :
  pass_flags g (m g) ->
  (forall a g', pass_flags g' (k a g')) ->
  pass_flags g (bind m k g).
Proof.
  unfold pass_flags, bind. intros Hm Hk.
  destruct (m g) as [[a| |e] g1 tr1]; simpl in *; [|exact Hm..].
  specialize (Hk a g1). destruct (k a g1) as [o g2 tr2]. simpl in *.
  destruct Hm as (Hm1 & Hm2 & Hm3 & Hm4).
  destruct Hk as (Hk1 & Hk2 & Hk3 & Hk4).
  rewrite Hk1, Hk2, Hk3, Hk4, Hm1, Hm2, Hm3, Hm4. by repeat split.
Qed.

Lemma for_each_pass_flags {A} (xs : list A) (body : A -> Host unit) :
  (forall x g, pass_flags g (body x g)) ->
  forall g, pass_flags g (for_each xs body g).
Proof.
  intros Hb. induction xs as [|x xs IH]; intros g; cbn [for_each].
  - by repeat split.
  - apply bind_pass_flags; [apply Hb|]. intros _ g'. apply IH.
Qed.

Section Commands.
Context `{Chip8Core}.

(** Every way [load_rom] can go. *)
Lemma load_rom_cases (fs : FileSystem) (filename : string) (g : EmulatorGUI) :
  load_rom fs filename g =
  if String.eqb filename "" then mkRun (Normal tt) g []
  else match Chip8_load_rom fs filename Chip8_new with
       | Ok c =>
           mkRun (Normal tt)
             (set_status_label
                (mkLabel ("Running: " +:+ basename filename) "green")
                (set_paused false (set_rom_loaded true (set_chip8 c g))))
             [CallChip8; CallLoadRom filename]
       | Raises e c' =>
           mkRun (Normal tt) (set_chip8 c' g)
             [CallChip8; CallLoadRom filename;
              ShowError "Error" "Failed to load ROM: " e]
       end.
Proof.
  destruct (String.eqb_spec filename "") as [->|Hname]; [reflexivity|].
  destruct (Chip8_load_rom fs filename Chip8_new) as [c|e c'] eqn:Hload.
  - by apply load_rom_success.
  - by apply load_rom_failure.
Qed.

(** X2.  A load forgets what was there: once a file is chosen, the
    interpreter the host holds afterwards and the calls made are the same
    from any two host objects, and when the loader returns so are
    [rom_loaded], [paused] and the status label. *)
Theorem load_rom_forgets_previous
    (fs : FileSystem) (filename : string) (g1 g2 : EmulatorGUI) :
  filename <> "" ->
  let r1 := load_rom fs filename g1 in
  let r2 := load_rom fs filename g2 in
  chip8 (final r1) = chip8 (final r2) /\
  effects r1 = effects r2 /\
  (forall c, Chip8_load_rom fs filename Chip8_new = Ok c ->
     rom_loaded (final r1) = rom_loaded (final r2) /\
     paused (final r1) = paused (final r2) /\
     status_label (final r1) = status_label (final r2)).
Proof.
  intros Hname. cbv zeta. rewrite !load_rom_cases.
  apply String.eqb_neq in Hname. rewrite Hname.
  destruct (Chip8_load_rom fs filename Chip8_new) as [c|e c'].
  - repeat split; reflexivity.
  - repeat split; try reflexivity; discriminate.
Qed.

(** X3.  A load that succeeds starts the program, also from a paused host:
    the interpreter is the one the loader returned, [rom_loaded] is true,
    [paused] is false and the status label reads "Running: " followed by the
    file's base name, in green. *)
Theorem load_rom_starts_program
    (fs : FileSystem) (filename : string) (g : EmulatorGUI) (c : Chip8) :
  filename <> "" ->
  Chip8_load_rom fs filename Chip8_new = Ok c ->
  let r := load_rom fs filename g in
  chip8 (final r) = c /\
  rom_loaded (final r) = true /\
  paused (final r) = false /\
  status_label (final r) = mkLabel ("Running: " +:+ basename filename) "green" /\
  count is_chip8_call (effects r) = 2%nat.
Proof.
  intros Hname Hload. cbv zeta.
  rewrite (load_rom_success fs filename g c Hname Hload).
  repeat split; reflexivity.
Qed.

(** X4.  Reset done twice is Reset done once, with or without a ROM. *)
Theorem reset_idempotent (g : EmulatorGUI) :
  final (reset (final (reset g))) = final (reset g).
Proof.
  rewrite !reset_run. cbn [final].
  destruct (rom_loaded g) eqn:Hrom; cbn [rom_loaded set_chip8]; rewrite Hrom;
    reflexivity.
Qed.

(** X5.  Reset never touches the host's own fields: [running], [paused]
    (a paused emulator stays paused), [rom_loaded], the screen and the status
    label are as before, and without a ROM loaded the whole host object is
    as before. *)
Theorem reset_keeps_host_fields (g : EmulatorGUI) :
  let g' := final (reset g) in
  running g' = running g /\ paused g' = paused g /\
  rom_loaded g' = rom_loaded g /\ screen g' = screen g /\
  status_label g' = status_label g /\
  (rom_loaded g = false -> g' = g).
Proof.
  cbv zeta. rewrite reset_run. cbn [final].
  destruct (rom_loaded g) eqn:Hrom; repeat split; try reflexivity; done.
Qed.

(** X6.  Reset after a load keeps the program: the memory and key state
    are those the loader left, the registers, I, stack and timers are
    cleared, PC is back at 0x200 and the draw flag is set, so that the next
    pass of the running loop repaints. *)
Theorem reset_after_load_keeps_program
    (fs : FileSystem) (filename : string) (g : EmulatorGUI) (c : Chip8) :
  filename <> "" ->
  Chip8_load_rom fs filename Chip8_new = Ok c ->
  let c' := chip8 (final (reset (final (load_rom fs filename g)))) in
  memory c' = memory c /\ keys c' = keys c /\
  pc c' = 0x200 /\ stack c' = [] /\ V c' = replicate 16 0 /\ I c' = 0 /\
  delay_timer c' = 0 /\ sound_timer c' = 0 /\ draw_flag c' = true.
Proof.
  intros Hname Hload. cbv zeta.
  rewrite (load_rom_success fs filename g c Hname Hload). cbn [final].
  rewrite reset_run. cbn [rom_loaded set_status_label set_paused
                           set_rom_loaded final chip8 set_chip8].
  repeat split; reflexivity.
Qed.

(** X7.  Pause/Resume pressed twice gives back the interpreter, the flags,
    the screen and the colour of the status label; the text of the label is
    not given back: it reads "Running" or "Paused" after the flag, whatever
    it read before (a file name, "No ROM loaded"). *)
Theorem toggle_pause_twice (g : EmulatorGUI) :
  let g' := final (toggle_pause (final (toggle_pause g))) in
  chip8 g' = chip8 g /\ running g' = running g /\ paused g' = paused g /\
  rom_loaded g' = rom_loaded g /\ screen g' = screen g /\
  fg (status_label g') = fg (status_label g) /\
  text (status_label g') = (if paused g then "Paused" else "Running").
Proof.
  cbv zeta. unfold toggle_pause, bind, get, modify. simpl.
  rewrite negb_involutive. repeat split; reflexivity.
Qed.

(** X8.  After Pause/Resume the status label says "Paused" exactly when
    the emulator is paused, and the flag is the opposite of what it was:
    also when no ROM is loaded, where the label then reads "Running" or
    "Paused" in its old colour. *)
Theorem toggle_pause_label_tracks_flag (g : EmulatorGUI) :
  let g' := final (toggle_pause g) in
  paused g' = negb (paused g) /\
  (text (status_label g') = "Paused" <-> paused g' = true) /\
  (text (status_label g') = "Running" <-> paused g' = false) /\
  fg (status_label g') = fg (status_label g) /\
  rom_loaded g' = rom_loaded g /\ running g' = running g.
Proof.
  cbv zeta. unfold toggle_pause, bind, get, modify. simpl.
  destruct (paused g); simpl; repeat split; try reflexivity; try discriminate.
Qed.

End Commands.

(** ** More on the emulation loop *)

Section LoopMore.
Context `{Chip8Core}.

Lemma handle_events_paused_run (f : Frame) (g : EmulatorGUI) :
  handle_events_paused f g =
  if has_quit (events f)
  then mkRun Returned (set_running false g) [PygameQuit; RootQuit; RootDestroy]
  else mkRun (Normal tt) g [].
Proof.
  unfold handle_events_paused, has_quit. destruct f as [evs kb rnd].
  cbn [events]. induction evs as [|[|ty] evs IH]; cbn [for_each is_quit].
  - reflexivity.
  - by rewrite (bind_returned _ _ _ _ _ (quit_and_return g)).
  - rewrite (bind_normal (ret tt) _ g tt g []) by reflexivity.
    rewrite IH. cbn [List.existsb is_quit orb].
    by destruct (List.existsb is_quit evs).
Qed.

Lemma idle_pass_run (f : Frame) (g : EmulatorGUI) :
  paused g = true \/ rom_loaded g = false ->
  emulation_loop_body f g =
  if has_quit (events f)
  then mkRun Returned (set_running false g) [PygameQuit; RootQuit; RootDestroy]
  else mkRun (Normal tt) g [TimeSleep].
Proof.
  intros Hidle. unfold emulation_loop_body.
  rewrite (bind_normal get _ g g g []) by reflexivity.
  cbn beta.
  assert (Hcond : rom_loaded g && negb (paused g) = false)
    by (destruct Hidle as [-> | ->]; [apply andb_false_r|reflexivity]).
  rewrite Hcond.
  pose proof (handle_events_paused_run f g) as Hev.
  destruct (has_quit (events f)).
  - by rewrite (bind_returned _ _ _ _ _ Hev).
  - by rewrite (bind_normal _ _ _ _ _ _ Hev).
Qed.

(** X9.  A pass of the loop while paused or without a ROM does one of two
    things.  With a QUIT event pending it quits (running off, pygame and the
    window shut down) and returns without sleeping; otherwise it sleeps once
    and leaves the whole host object, not only the interpreter, as it was.
    Events other than QUIT are dropped. *)
Theorem idle_pass_quits_or_sleeps (f : Frame) (g : EmulatorGUI) :
  paused g = true \/ rom_loaded g = false ->
  (has_quit (events f) = true ->
   emulation_loop_body f g =
   mkRun Returned (set_running false g) [PygameQuit; RootQuit; RootDestroy]) /\
  (has_quit (events f) = false ->
   emulation_loop_body f g = mkRun (Normal tt) g [TimeSleep]).
Proof.
  intros Hidle. rewrite (idle_pass_run f g Hidle).
  split; intros ->; reflexivity.
Qed.

Lemma handle_events_quit (kb : Keyboard) (rnd : nat -> Z)
    (pre post : list PygameEvent) (g : EmulatorGUI) (c0 : Chip8) :
  has_quit pre = false ->
  call_each (fun _ => Chip8_handle_input kb) pre (chip8 g) = Ok c0 ->
  handle_events (mkFrame (pre ++ QUIT :: post) kb rnd) g =
  mkRun Returned (set_running false (set_chip8 c0 g))
        (replicate (length pre) CallHandleInput
         ++ [PygameQuit; RootQuit; RootDestroy]).
Proof.
  unfold handle_events, has_quit. cbn [events keyboard].
  revert g. induction pre as [|[|ty] pre IH]; intros g Hq Hc;
    cbn [app for_each is_quit List.existsb orb call_each] in *.
  - injection Hc as <-. rewrite set_chip8_same.
    by rewrite (bind_returned _ _ _ _ _ (quit_and_return g)).
  - discriminate.
  - destruct (Chip8_handle_input kb (chip8 g)) as [c'|e c'] eqn:Hm;
      [|discriminate].
    rewrite (bind_normal _ _ _ _ _ _ (call_chip8_ok CallHandleInput _ _ _ Hm)).
    rewrite (IH (set_chip8 c' g) Hq Hc). reflexivity.
Qed.

(** X10.  A QUIT event in a pass through the running branch ends the pass
    on the spot: the events before it have each had the interpreter poll its
    input, the events after it are dropped, no cycle is run, the display is
    not touched, the frame clock is not ticked, [running] goes off and the
    function returns with the interpreter as the last input poll left it. *)
Theorem quit_event_ends_running_pass
    (f : Frame) (pre post : list PygameEvent) (g : EmulatorGUI) (c0 : Chip8) :
  rom_loaded g = true -> paused g = false ->
  events f = pre ++ QUIT :: post ->
  has_quit pre = false ->
  call_each (fun _ => Chip8_handle_input (keyboard f)) pre (chip8 g) = Ok c0 ->
  emulation_loop_body f g =
  mkRun Returned (set_running false (set_chip8 c0 g))
        (replicate (length pre) CallHandleInput
         ++ [PygameQuit; RootQuit; RootDestroy]).
Proof.
  intros Hrom Hpaused Hev Hq Hc. unfold emulation_loop_body.
  rewrite (bind_normal get _ g g g []) by reflexivity.
  cbn beta. rewrite Hrom, Hpaused. cbn [andb negb].
  destruct f as [evs kb rnd]. cbn [events keyboard] in *. subst evs.
  by rewrite (bind_returned _ _ _ _ _
                (handle_events_quit kb rnd pre post g c0 Hq Hc)).
Qed.

Lemma emulation_loop_cons (f : Frame) (rest : list Frame) (g : EmulatorGUI) :
  emulation_loop (f :: rest) g =
  if running g then (emulation_loop_body f ;; emulation_loop rest) g
  else mkRun (Normal tt) g [].
Proof.
  cbn [emulation_loop].
  rewrite (bind_normal get _ g g g []) by reflexivity.
  cbn beta. destruct (running g).
  - match goal with |- context [outcome ?r] => by destruct r end.
  - reflexivity.
Qed.

Lemma idle_loop_run (frames : list Frame) (g : EmulatorGUI) :
  paused g = true \/ rom_loaded g = false ->
  chip8 (final (emulation_loop frames g)) = chip8 g /\
  paused (final (emulation_loop frames g)) = paused g /\
  rom_loaded (final (emulation_loop frames g)) = rom_loaded g /\
  Forall (fun e => is_chip8_call e = false)
         (effects (emulation_loop frames g)).
Proof.
  intros Hidle. induction frames as [|f rest IH].
  - repeat split; constructor.
  - rewrite emulation_loop_cons. destruct (running g).
    + pose proof (idle_pass_run f g Hidle) as Hpass.
      destruct (has_quit (events f)).
      * rewrite (bind_returned _ _ _ _ _ Hpass).
        repeat split; repeat constructor.
      * rewrite (bind_normal _ _ _ _ _ _ Hpass).
        destruct IH as (IH1 & IH2 & IH3 & IH4).
        cbn [final effects]. repeat split; try assumption.
        constructor; [reflexivity|exact IH4].
    + repeat split; constructor.
Qed.

(** X11.  As long as the emulator is paused, or no ROM has been loaded,
    the emulation loop never touches the interpreter, however many passes it
    makes and whatever events arrive: after any number of passes the
    interpreter object is the one from before and no call on it was made. *)
Theorem idle_loop_never_touches_interpreter
    (frames : list Frame) (g : EmulatorGUI) :
  paused g = true \/ rom_loaded g = false ->
  let r := emulation_loop frames g in
  chip8 (final r) = chip8 g /\
  Forall (fun e => is_chip8_call e = false) (effects r).
Proof.
  intros Hidle. cbv zeta.
  destruct (idle_loop_run frames g Hidle) as (Hc & _ & _ & He).
  by split.
Qed.

(** X12.  Pausing freezes the program: press Pause on a running emulator,
    let the loop make any number of passes, press Resume, and the
    interpreter is exactly the one from before the pause, unpaused again. *)
Theorem pause_freezes_interpreter (frames : list Frame) (g : EmulatorGUI) :
  paused g = false ->
  let g1 := final (toggle_pause g) in
  let g2 := final (emulation_loop frames g1) in
  let g3 := final (toggle_pause g2) in
  paused g1 = true /\ chip8 g2 = chip8 g /\
  chip8 g3 = chip8 g /\ paused g3 = false /\ rom_loaded g3 = rom_loaded g.
Proof.
  intros Hpaused. cbv zeta.
  assert (H1 : paused (final (toggle_pause g)) = true)
    by (unfold toggle_pause, bind, get, modify; simpl; by rewrite Hpaused).
  assert (H1c : chip8 (final (toggle_pause g)) = chip8 g) by reflexivity.
  assert (H1r : rom_loaded (final (toggle_pause g)) = rom_loaded g)
    by reflexivity.
  destruct (idle_loop_run frames (final (toggle_pause g)) (or_introl H1))
    as (Hc & Hp & Hr & _).
  split; [exact H1|]. split; [by rewrite Hc|].
  assert (H3 : forall g', chip8 (final (toggle_pause g')) = chip8 g' /\
                 paused (final (toggle_pause g')) = negb (paused g') /\
                 rom_loaded (final (toggle_pause g')) = rom_loaded g')
    by (intros g'; repeat split; reflexivity).
  destruct (H3 (final (emulation_loop frames (final (toggle_pause g)))))
    as (H3c & H3p & H3r).
  rewrite H3c, H3p, H3r, Hc, Hp, Hr, H1, H1c, H1r. by repeat split.
Qed.

(** *** Flags and calls of the loop, whatever happens *)

Lemma call_chip8_pass_flags name method g :
  pass_flags g (call_chip8 name method g).
Proof.
  unfold pass_flags, call_chip8. destruct (method (chip8 g)); by repeat split.
Qed.

Lemma draw_display_pass_flags g : pass_flags g (draw_display g).
Proof.
  unfold draw_display. apply for_each_pass_flags. intros y g'.
  apply for_each_pass_flags. intros x g''.
  unfold pass_flags, draw_cell, bind, get. simpl.
  destruct (display (chip8 g'') !! (y * 64 + x)%nat); by repeat split.
Qed.

Lemma update_display_pass_flags g : pass_flags g (update_display g).
Proof.
  unfold update_display. apply bind_pass_flags; [by repeat split|].
  intros g0 g'. destruct (draw_flag (chip8 g0)); [|by repeat split].
  apply bind_pass_flags; [by repeat split|]. intros _ g1.
  apply bind_pass_flags; [by repeat split|]. intros _ g2.
  apply bind_pass_flags; [apply draw_display_pass_flags|]. intros _ g3.
  apply bind_pass_flags; [by repeat split|]. intros _ g4.
  by repeat split.
Qed.

Lemma loop_body_pass_flags (f : Frame) (g : EmulatorGUI) :
  pass_flags g (emulation_loop_body f g).
Proof.
  unfold emulation_loop_body. apply bind_pass_flags; [by repeat split|].
  intros g0 g'. destruct (rom_loaded g0 && negb (paused g0)).
  - apply bind_pass_flags.
    { unfold handle_events. apply for_each_pass_flags. intros [|ty] g1.
      - cbn [is_quit]. rewrite quit_and_return. by repeat split.
      - apply call_chip8_pass_flags. }
    intros _ g1. apply bind_pass_flags.
    { unfold emulate_cycles. apply for_each_pass_flags. intros i g2.
      apply call_chip8_pass_flags. }
    intros _ g2. apply bind_pass_flags; [apply update_display_pass_flags|].
    intros _ g3. by repeat split.
  - apply bind_pass_flags.
    { unfold handle_events_paused. apply for_each_pass_flags. intros [|ty] g1.
      - cbn [is_quit]. rewrite quit_and_return. by repeat split.
      - by repeat split. }
    intros _ g1. by repeat split.
Qed.

(** X13.  Whatever the events and whatever the interpreter does, the
    emulation loop never changes [rom_loaded], [paused] or the status label,
    and the only thing it does to [running] is to turn it off when it
    returns on a QUIT event: in every other case (the frames run out, an
    interpreter call raises) [running] is what it was.  This holds for one
    pass and for any number of passes. *)
Theorem emulation_loop_keeps_flags (frames : list Frame) (f : Frame)
    (g : EmulatorGUI) :
  pass_flags g (emulation_loop_body f g) /\
  pass_flags g (emulation_loop frames g).
Proof.
  split; [apply loop_body_pass_flags|].
  revert g. induction frames as [|f0 rest IH]; intros g;
    cbn [emulation_loop].
  - by repeat split.
  - apply bind_pass_flags; [by repeat split|].
    intros g0 g'. destruct (running g0); [|by repeat split].
    apply bind_pass_flags; [apply loop_body_pass_flags|].
    intros _ g1. apply IH.
Qed.

Lemma draw_display_loop_effects g :
  Forall (fun e => is_loop_effect e = true) (effects (draw_display g)).
Proof. rewrite draw_display_effects. constructor. Qed.

Lemma loop_body_effects (f : Frame) (g : EmulatorGUI) :
  Forall (fun e => is_loop_effect e = true) (effects (emulation_loop_body f g)).
Proof.
  unfold emulation_loop_body. apply bind_effects_forall; [constructor|].
  intros g0 g'. destruct (rom_loaded g0 && negb (paused g0)).
  - apply bind_effects_forall.
    { unfold handle_events. apply for_each_effects. intros [|ty] g1.
      - cbn [is_quit]. rewrite quit_and_return. repeat constructor.
      - cbn [is_quit]. unfold call_chip8.
        destruct (Chip8_handle_input (keyboard f) (chip8 g1));
          repeat constructor. }
    intros _ g1. apply bind_effects_forall.
    { unfold emulate_cycles. apply for_each_effects. intros i g2.
      unfold call_chip8.
      destruct (Chip8_emulate_cycle (random f i) (chip8 g2));
        repeat constructor. }
    intros _ g2. apply bind_effects_forall; [|intros; repeat constructor].
    unfold update_display. apply bind_effects_forall; [constructor|].
    intros g3 g4. destruct (draw_flag (chip8 g3)); [|constructor].
    apply bind_effects_forall; [repeat constructor|]. intros _ g5.
    apply bind_effects_forall; [constructor|]. intros _ g6.
    apply bind_effects_forall; [apply draw_display_loop_effects|].
    intros _ g7.
    apply bind_effects_forall; [repeat constructor|]. intros _ g8.
    constructor.
  - apply bind_effects_forall; [|intros; repeat constructor].
    unfold handle_events_paused. apply for_each_effects. intros [|ty] g1.
    + cbn [is_quit]. rewrite quit_and_return. repeat constructor.
    + constructor.
Qed.

(** X14.  The emulation loop never opens a dialog and never makes or loads
    an interpreter: over any number of passes its outside calls are only
    input polls, cycles, screen fills, display flips, frame-clock ticks,
    sleeps and, on QUIT, the three shutdown calls. *)
Theorem emulation_loop_makes_only_loop_calls
    (frames : list Frame) (g : EmulatorGUI) :
  Forall (fun e => is_loop_effect e = true) (effects (emulation_loop frames g)).
Proof.
  revert g. induction frames as [|f rest IH]; intros g; cbn [emulation_loop].
  - constructor.
  - apply bind_effects_forall; [constructor|].
    intros g0 g'. destruct (running g0); [|constructor].
    apply bind_effects_forall; [apply loop_body_effects|].
    intros _ g1. apply IH.
Qed.

Lemma emulation_loop_stopped (frames : list Frame) (g : EmulatorGUI) :
  running g = false -> emulation_loop frames g = mkRun (Normal tt) g [].
Proof.
  intros Hrun. destruct frames as [|f rest]; [reflexivity|].
  by rewrite emulation_loop_cons, Hrun.
Qed.

(** X15.  The loop over two runs of frames is the loop over the first
    followed, when that one came to its end, by the loop over the second
    from where the first left the host. *)
Theorem emulation_loop_app (frames1 frames2 : list Frame) (g : EmulatorGUI) :
  outcome (emulation_loop frames1 g) = Normal tt ->
  emulation_loop (frames1 ++ frames2) g =
  (emulation_loop frames1 ;; emulation_loop frames2) g.
Proof.
  revert g. induction frames1 as [|f rest IH]; intros g Hout.
  - cbn [app emulation_loop].
    rewrite (bind_normal (ret tt) _ g tt g []) by reflexivity.
    by destruct (emulation_loop frames2 g).
  - cbn [app]. rewrite emulation_loop_cons in Hout.
    rewrite !emulation_loop_cons.
    unfold bind at 2.
    rewrite emulation_loop_cons.
    destruct (running g) eqn:Hrun.
    + unfold bind in Hout |- *.
      destruct (emulation_loop_body f g) as [[[]| |e] g1 tr1];
        try discriminate.
      specialize (IH g1). unfold bind in IH.
      destruct (emulation_loop rest g1) as [[[]| |e] g2 tr2];
        try discriminate.
      rewrite (IH eq_refl).
      destruct (emulation_loop frames2 g2) as [o g3 tr3].
      by rewrite app_assoc.
    + by rewrite (emulation_loop_stopped frames2 g Hrun).
Qed.

End LoopMore.

(** ** More on painting *)

Lemma draw_cell_raises (y x : nat) (g : EmulatorGUI) :
  display (chip8 g) !! (y * 64 + x)%nat = None ->
  draw_cell y x g = mkRun (Uncaught IndexError) g [].
Proof.
  intros Hnone. unfold draw_cell, bind, get. simpl. by rewrite Hnone.
Qed.

Lemma draw_cell_paints (y x : nat) (g : EmulatorGUI) (v : Z) :
  display (chip8 g) !! (y * 64 + x)%nat = Some v ->
  draw_cell y x g =
  mkRun (Normal tt)
        (set_screen (paint_cell (display (chip8 g)) y x (screen g)) g) [].
Proof.
  intros Hv. unfold draw_cell, bind, get. simpl. rewrite Hv. simpl.
  unfold paint_cell, cell_colour. by rewrite Hv.
Qed.

Lemma draw_row_raises (g : EmulatorGUI) (y : nat) (xs : list nat) :
  (exists x, x ∈ xs /\ (length (display (chip8 g)) <= y * 64 + x)%nat) ->
  outcome (for_each xs (fun x => draw_cell y x) g) = Uncaught IndexError.
Proof.
  revert g. induction xs as [|x0 xs IH]; intros g (x & Hx & Hlen).
  - by apply elem_of_nil in Hx.
  - cbn [for_each]. rewrite bind_outcome.
    destruct (display (chip8 g) !! (y * 64 + x0)%nat) as [v|] eqn:Hl.
    + rewrite (draw_cell_paints y x0 g v Hl). cbn [outcome final].
      apply IH. exists x. split; [|exact Hlen].
      apply elem_of_cons in Hx as [->|Hx]; [|exact Hx].
      apply lookup_lt_Some in Hl. lia.
    + by rewrite (draw_cell_raises y x0 g Hl).
Qed.

Lemma draw_rows_raise (g : EmulatorGUI) (ys : list nat) :
  (exists y x, y ∈ ys /\ (x < 64)%nat /\
               (length (display (chip8 g)) <= y * 64 + x)%nat) ->
  outcome (for_each ys (fun y => for_each (seq 0 64) (fun x => draw_cell y x)) g)
  = Uncaught IndexError.
Proof.
  revert g. induction ys as [|y0 ys IH]; intros g (y & x & Hy & Hx & Hlen).
  - by apply elem_of_nil in Hy.
  - cbn [for_each]. rewrite bind_outcome.
    destruct (le_lt_dec (length (display (chip8 g))) (y0 * 64 + 63))
      as [Hshort|Hlong].
    + rewrite (draw_row_raises g y0 (seq 0 64)); [reflexivity|].
      exists 63%nat. split; [apply elem_of_seq; lia|exact Hshort].
    + rewrite (draw_row_run g y0 (seq 0 64))
        by (intros x' Hx'%elem_of_seq; lia).
      cbn [outcome final]. apply IH. exists y, x.
      split; [|by split].
      apply elem_of_cons in Hy as [->|Hy]; [lia|exact Hy].
Qed.

(** X16.  On a framebuffer list with fewer than 2048 elements
    [draw_display] raises [IndexError] (the index y*64+x runs past the end
    of the list); it has made no outside call and the interpreter object is
    untouched. *)
Theorem draw_display_short_framebuffer (g : EmulatorGUI) :
  (length (display (chip8 g)) < 2048)%nat ->
  outcome (draw_display g) = Uncaught IndexError /\
  chip8 (final (draw_display g)) = chip8 g /\
  effects (draw_display g) = [].
Proof.
  intros Hlen. split; [|split].
  - unfold draw_display. apply draw_rows_raise.
    exists 31%nat, 63%nat. split; [apply elem_of_seq; lia|]. split; lia.
  - apply draw_display_chip8.
  - apply draw_display_effects.
Qed.

Lemma paint_row_outside d xs y s px py :
  (forall x, x ∈ xs -> ~ in_block x y px py) ->
  paint_row d xs y s px py = s px py.
Proof.
  revert s. induction xs as [|x xs IH]; intros s Hout; [reflexivity|].
  change (paint_row d (x :: xs) y s)
    with (paint_row d xs y (paint_cell d y x s)).
  rewrite IH by (intros x' Hx'; apply Hout; by right).
  unfold paint_cell. apply slice_assign_outside.
  intros [Hx Hy]. apply (Hout x); [left|]. unfold in_block. lia.
Qed.

Lemma paint_outside d ys xs s px py :
  (forall x y, x ∈ xs -> y ∈ ys -> ~ in_block x y px py) ->
  paint d ys xs s px py = s px py.
Proof.
  revert s. induction ys as [|y ys IH]; intros s Hout; [reflexivity|].
  change (paint d (y :: ys) xs s) with (paint d ys xs (paint_row d xs y s)).
  rewrite IH by (intros x' y' Hx' Hy'; apply Hout; [done|by right]).
  apply paint_row_outside. intros x Hx. apply Hout; [done|left].
Qed.

(** X17.  [draw_display] repaints the whole 640x320 window and nothing
    else: after it, every pixel (px, py) of the window has the colour of
    framebuffer cell (px // 10, py // 10), whatever was on the screen
    before, so the screen fill before it never shows; and no pixel position
    outside the window is assigned. *)
Theorem draw_display_covers_window (g : EmulatorGUI) :
  (2048 <= length (display (chip8 g)))%nat ->
  (forall px py, (px < 640)%nat -> (py < 320)%nat ->
     exists v,
       display (chip8 g) !! (py / 10 * 64 + px / 10)%nat = Some v /\
       screen (final (draw_display g)) px py
       = if v =? 1 then WHITE else BLACK) /\
  (forall px py, (640 <= px)%nat \/ (320 <= py)%nat ->
     screen (final (draw_display g)) px py = screen g px py).
Proof.
  intros Hlen. rewrite (draw_display_run g Hlen).
  cbn [final screen set_screen]. split.
  - intros px py Hpx Hpy.
    assert (Hx : (px / 10 < 64)%nat) by (apply Nat.Div0.div_lt_upper_bound; lia).
    assert (Hy : (py / 10 < 32)%nat) by (apply Nat.Div0.div_lt_upper_bound; lia).
    destruct (lookup_lt_is_Some_2 (display (chip8 g))
                (py / 10 * 64 + px / 10)) as [v Hv]; [lia|].
    exists v. split; [exact Hv|].
    apply (paint_pixel _ _ (px / 10) (py / 10)); try assumption.
    unfold in_block.
    pose proof (Nat.div_mod_eq px 10). pose proof (Nat.div_mod_eq py 10).
    pose proof (Nat.mod_upper_bound px 10). pose proof (Nat.mod_upper_bound py 10).
    lia.
  - intros px py Hout. apply paint_outside.
    intros x y Hx%elem_of_seq Hy%elem_of_seq [Hbx Hby]. lia.
Qed.

(** ** More on the commands and the main thread *)

Section MainThreadFacts.
Context `{Chip8Core}.

Lemma toggle_pause_run (g : EmulatorGUI) :
  toggle_pause g =
  mkRun (Normal tt)
        (set_status_label
           (mkLabel (if negb (paused g) then "Paused" else "Running")
                    (fg (status_label g)))
           (set_paused (negb (paused g)) g)) [].
Proof. reflexivity. Qed.

Lemma command_completes (cmd : Command) (g : EmulatorGUI) :
  outcome (command cmd g) = Normal tt /\
  Forall (fun e => is_command_effect e = true) (effects (command cmd g)).
Proof.
  destruct cmd as [fs filename| | | | |]; cbn [command].
  - rewrite load_rom_cases.
    destruct (String.eqb filename "");
      [|destruct (Chip8_load_rom fs filename Chip8_new)];
      split; try reflexivity; repeat constructor.
  - split; [reflexivity|repeat constructor].
  - split; [reflexivity|repeat constructor].
  - split; [reflexivity|repeat constructor].
  - rewrite toggle_pause_run. split; [reflexivity|constructor].
  - rewrite reset_run. split; [reflexivity|constructor].
Qed.

Lemma command_frame (cmd : Command) (g : EmulatorGUI) :
  screen (final (command cmd g)) = screen g /\
  (running g = false -> running (final (command cmd g)) = false) /\
  (rom_loaded g = true -> rom_loaded (final (command cmd g)) = true).
Proof.
  destruct cmd as [fs filename| | | | |]; cbn [command].
  - rewrite load_rom_cases.
    destruct (String.eqb filename "");
      [|destruct (Chip8_load_rom fs filename Chip8_new)];
      repeat split; try reflexivity; done.
  - repeat split; done.
  - repeat split; done.
  - repeat split; done.
  - rewrite toggle_pause_run. repeat split; done.
  - rewrite reset_run. cbn [final].
    destruct (rom_loaded g) eqn:Hrom; repeat split; done.
Qed.

(** X18.  No command of the window drives the interpreter or the display:
    a command calls neither [emulate_cycle] nor [handle_input], fills or
    flips nothing and ticks no clock; the only outside calls a command makes
    are making and loading an interpreter, dialogs and the three shutdown
    calls. *)
Theorem commands_never_step_interpreter (cmd : Command) (g : EmulatorGUI) :
  Forall (fun e => is_command_effect e = true) (effects (command cmd g)).
Proof. apply command_completes. Qed.

(** X19.  No command paints: the screen after any command is the screen
    before.  No command turns [running] back on, and none turns
    [rom_loaded] back off: once quit, the host stays quit, and once a ROM
    has been loaded the host never goes back to "no ROM". *)
Theorem commands_keep_screen_and_flag_order (cmd : Command) (g : EmulatorGUI) :
  screen (final (command cmd g)) = screen g /\
  (running g = false -> running (final (command cmd g)) = false) /\
  (rom_loaded g = true -> rom_loaded (final (command cmd g)) = true).
Proof. apply command_frame. Qed.

Lemma callbacks_run (cmds : list Command) (g : EmulatorGUI) :
  outcome (for_each cmds command g) = Normal tt /\
  Forall (fun e => is_command_effect e = true)
         (effects (for_each cmds command g)) /\
  (running g = false -> running (final (for_each cmds command g)) = false) /\
  (In MenuExit cmds -> running (final (for_each cmds command g)) = false).
Proof.
  revert g. induction cmds as [|cmd cmds IH]; intros g; cbn [for_each].
  - repeat split; try done; by constructor.
  - destruct (command_completes cmd g) as [Hout Heff].
    destruct (command_frame cmd g) as (_ & Hoff & _).
    destruct (IH (final (command cmd g))) as (IHout & IHeff & IHoff & IHexit).
    rewrite bind_outcome, bind_effects, bind_final, Hout.
    split; [exact IHout|]. split; [by apply Forall_app|].
    split; [by intros Hrun; apply IHoff, Hoff|].
    intros [->|Hin]; [by apply IHoff|by apply IHexit].
Qed.

(** X20.  The main loop stops at the first update in which the window is
    gone or Exit (or closing the window) was among the callbacks: [run]
    then returns with [running] off, and the callbacks of later updates are
    never invoked. *)
Theorem run_stops_after_exit (u : Update) (rest : list Update)
    (g : EmulatorGUI) :
  tcl_error u = true \/ In MenuExit (callbacks u) ->
  run (u :: rest) g = run [u] g /\
  outcome (run [u] g) = Normal tt /\
  running (final (run [u] g)) = false.
Proof.
  intros Hstop. cbn [run].
  destruct (callbacks_run (callbacks u) g) as (Hout & _ & _ & Hexit).
  destruct (for_each (callbacks u) command g) as [o g1 tr1] eqn:Hr.
  cbn [outcome final] in Hout, Hexit. subst o.
  rewrite !(bind_normal _ _ _ _ _ _ Hr).
  destruct (tcl_error u).
  - repeat split; reflexivity.
  - destruct Hstop as [|Hin]; [discriminate|].
    assert (Hbreak : forall k : Host unit,
              (g0 <- get ;; if negb (running g0) then ret tt else k) g1
              = mkRun (Normal tt) g1 []).
    { intros k. rewrite (bind_normal get _ g1 g1 g1 []) by reflexivity.
      cbn beta. by rewrite (Hexit Hin). }
    rewrite !Hbreak. repeat split; try reflexivity. exact (Hexit Hin).
Qed.

(** X21.  The main thread never drives the interpreter: whatever the
    updates, [run] returns normally and its outside calls are only those of
    the commands (making and loading an interpreter, dialogs, shutdown
    calls); [emulate_cycle], [handle_input] and the display calls are made
    by the emulation loop alone. *)
Theorem run_makes_only_command_calls (updates : list Update)
    (g : EmulatorGUI) :
  outcome (run updates g) = Normal tt /\
  Forall (fun e => is_command_effect e = true) (effects (run updates g)).
Proof.
  revert g. induction updates as [|u rest IH]; intros g; cbn [run].
  - split; [reflexivity|constructor].
  - destruct (callbacks_run (callbacks u) g) as (Hout & Heff & _ & _).
    rewrite bind_outcome, bind_effects, Hout.
    destruct (tcl_error u).
    + split; [reflexivity|]. apply Forall_app. split; [exact Heff|].
      repeat constructor.
    + rewrite bind_outcome, bind_effects. cbn [get outcome final effects app].
      destruct (running (final (for_each (callbacks u) command g)));
        cbn [negb].
      * destruct (IH (final (for_each (callbacks u) command g))) as [IHo IHe].
        split; [exact IHo|]. by apply Forall_app.
      * split; [reflexivity|]. apply Forall_app. split; [exact Heff|].
        constructor.
Qed.

End MainThreadFacts.

(** ** Faults inside a pass *)

Section PassFaults.
Context `{Chip8Core}.

Lemma handle_events_raises (f : Frame) (g : EmulatorGUI) (e : Exn)
    (c : Chip8) :
  has_quit (events f) = false ->
  call_each (fun _ => Chip8_handle_input (keyboard f)) (events f) (chip8 g)
  = Raises e c ->
  exists k,
    handle_events f g =
    mkRun (Uncaught e) (set_chip8 c g) (replicate k CallHandleInput).
Proof.
  unfold handle_events, has_quit. destruct f as [evs kb rnd].
  cbn [events keyboard].
  revert g. induction evs as [|[|ty] evs IH]; intros g Hq Hc;
    cbn [for_each is_quit List.existsb orb call_each] in *; try discriminate.
  destruct (Chip8_handle_input kb (chip8 g)) as [c'|e' c'] eqn:Hm.
  - rewrite (bind_normal _ _ _ _ _ _ (call_chip8_ok CallHandleInput _ _ _ Hm)).
    destruct (IH (set_chip8 c' g) Hq Hc) as (k & ->).
    by exists (S k).
  - injection Hc as <- <-.
    rewrite (bind_uncaught _ _ _ _ _ _
               (call_chip8_raises CallHandleInput _ _ _ _ Hm)).
    by exists 1%nat.
Qed.

(** X22.  An exception raised by the interpreter in a pass through the
    running branch, in an input poll or in a cycle, is not handled by the
    loop: the pass ends with that exception propagating and with the
    interpreter as the raising call left it; nothing after the raising call
    is run, so the display is not updated, the frame clock is not ticked, no
    dialog is shown and the screen is as before. *)
Theorem interpreter_fault_ends_pass
    (f : Frame) (g : EmulatorGUI) (e : Exn) (c : Chip8) :
  rom_loaded g = true -> paused g = false ->
  has_quit (events f) = false ->
  drive f (chip8 g) = Raises e c ->
  let r := emulation_loop_body f g in
  outcome r = Uncaught e /\
  final r = set_chip8 c g /\
  Forall (fun ev => is_chip8_call ev = true) (effects r).
Proof.
  intros Hrom Hpaused Hq Hdrive. cbv zeta. unfold drive in Hdrive.
  destruct (call_each _ (events f) (chip8 g)) as [c0|e0 c0] eqn:Hev.
  - destruct (cycle_fault_propagates f g c0 c e Hrom Hpaused Hq Hev Hdrive)
      as (k & ->).
    repeat split. apply Forall_app. split; apply Forall_replicate;
      reflexivity.
  - injection Hdrive as <- <-.
    destruct (handle_events_raises f g e0 c0 Hq Hev) as (k & Hrun).
    unfold emulation_loop_body.
    rewrite (bind_normal get _ g g g []) by reflexivity.
    cbn beta. rewrite Hrom, Hpaused. cbn [andb negb].
    rewrite (bind_uncaught _ _ _ _ _ _ Hrun).
    repeat split. cbn [effects app]. apply Forall_replicate. reflexivity.
Qed.

Lemma update_display_short (g : EmulatorGUI) :
  draw_flag (chip8 g) = true ->
  (length (display (chip8 g)) < 2048)%nat ->
  outcome (update_display g) = Uncaught IndexError /\
  effects (update_display g) = [ScreenFill BLACK] /\
  chip8 (final (update_display g)) = chip8 g.
Proof.
  intros Hflag Hlen. unfold update_display.
  rewrite (bind_normal get _ g g g []) by reflexivity.
  cbn beta. rewrite Hflag.
  rewrite (bind_normal (emit (ScreenFill BLACK)) _ g tt g [ScreenFill BLACK])
    by reflexivity.
  rewrite (bind_normal (modify _) _ g tt
             (set_screen (fun _ _ => BLACK) g) []) by reflexivity.
  cbn [outcome final effects app].
  assert (Hraise : outcome (draw_display (set_screen (fun _ _ => BLACK) g))
                   = Uncaught IndexError).
  { unfold draw_display. apply draw_rows_raise.
    exists 31%nat, 63%nat. split; [apply elem_of_seq; lia|].
    split; [lia|]. cbn [chip8 set_screen]. lia. }
  rewrite bind_outcome, bind_effects, bind_final, Hraise.
  rewrite draw_display_effects, draw_display_chip8.
  repeat split.
Qed.

(** X23.  When the draw flag is set and the framebuffer list has fewer
    than 2048 elements, a pass through the running branch that got through
    its 10 cycles fills the screen and then ends with [IndexError]
    propagating from [draw_display]: the display is not flipped, the frame
    clock is not ticked, and the draw flag is still set. *)
Theorem short_framebuffer_stops_pass
    (f : Frame) (g : EmulatorGUI) (c1 : Chip8) :
  rom_loaded g = true -> paused g = false ->
  has_quit (events f) = false ->
  drive f (chip8 g) = Ok c1 ->
  draw_flag c1 = true ->
  (length (display c1) < 2048)%nat ->
  let r := emulation_loop_body f g in
  outcome r = Uncaught IndexError /\
  effects r = replicate (length (events f)) CallHandleInput
              ++ replicate 10 CallEmulateCycle ++ [ScreenFill BLACK] /\
  chip8 (final r) = c1 /\ draw_flag (chip8 (final r)) = true.
Proof.
  intros Hrom Hpaused Hq Hdrive Hflag Hlen. cbv zeta.
  unfold emulation_loop_body.
  rewrite (bind_normal get _ g g g []) by reflexivity.
  cbn beta. rewrite Hrom, Hpaused. cbn [andb negb].
  unfold drive in Hdrive.
  destruct (call_each _ (events f) (chip8 g)) as [c0|e c0] eqn:Hev;
    [|discriminate].
  rewrite (bind_normal _ _ _ _ _ _ (handle_events_run f g c0 Hq Hev)).
  rewrite (bind_normal _ _ _ _ _ _
             (emulate_cycles_run f (set_chip8 c0 g) c1 Hdrive)).
  cbn [outcome final effects].
  destruct (update_display_short (set_chip8 c1 (set_chip8 c0 g)) Hflag Hlen)
    as (Hout & Heff & Hchip).
  rewrite bind_outcome, bind_effects, bind_final, Hout, Heff, Hchip.
  repeat split. exact Hflag.
Qed.

End PassFaults.

(** ** The added statements on sample runs *)

Lemma load_rom_forgets_previous_witness :
  chip8 (final (load_rom sample_files "roms/timer.ch8" EmulatorGUI_new))
  = chip8 (final (load_rom sample_files "roms/timer.ch8" timer_started)).
Proof.
  assert (Hname : "roms/timer.ch8" <> "") by discriminate.
  exact (proj1 (load_rom_forgets_previous sample_files "roms/timer.ch8"
                  EmulatorGUI_new timer_started Hname)).
Defined.

Lemma load_rom_starts_program_witness :
  let r := load_rom sample_files "roms/timer.ch8"
                    (final (toggle_pause timer_started)) in
  paused (final (toggle_pause timer_started)) = true /\
  paused (final r) = false /\ rom_loaded (final r) = true /\
  status_label (final r) = mkLabel "Running: timer.ch8" "green".
Proof.
  assert (Hname : "roms/timer.ch8" <> "") by discriminate.
  assert (Hload : Chip8_load_rom sample_files "roms/timer.ch8" Chip8_new
                  = Ok (chip8 timer_loaded)) by (vm_compute; reflexivity).
  destruct (load_rom_starts_program sample_files "roms/timer.ch8"
              (final (toggle_pause timer_started)) (chip8 timer_loaded)
              Hname Hload) as (_ & Hrom & Hpaused & Hlabel & _).
  split; [vm_compute; reflexivity|]. split; [exact Hpaused|].
  split; [exact Hrom|]. rewrite Hlabel. reflexivity.
Defined.

Lemma reset_after_load_keeps_program_witness :
  let c' := chip8 (final (reset (final (load_rom sample_files "roms/timer.ch8"
                                                 timer_started)))) in
  memory c' = memory (chip8 timer_loaded) /\ pc c' = 0x200 /\
  draw_flag c' = true.
Proof.
  assert (Hname : "roms/timer.ch8" <> "") by discriminate.
  assert (Hload : Chip8_load_rom sample_files "roms/timer.ch8" Chip8_new
                  = Ok (chip8 timer_loaded)) by (vm_compute; reflexivity).
  destruct (reset_after_load_keeps_program sample_files "roms/timer.ch8"
              timer_started (chip8 timer_loaded) Hname Hload)
    as (Hmem & _ & Hpc & _ & _ & _ & _ & _ & Hflag).
  split; [exact Hmem|]. split; [exact Hpc|exact Hflag].
Defined.

Lemma idle_pass_quits_or_sleeps_witness :
  emulation_loop_body quit_frame EmulatorGUI_new
  = mkRun Returned (set_running false EmulatorGUI_new)
          [PygameQuit; RootQuit; RootDestroy] /\
  emulation_loop_body key_frame EmulatorGUI_new
  = mkRun (Normal tt) EmulatorGUI_new [TimeSleep].
Proof.
  assert (Hidle : paused EmulatorGUI_new = true
                  \/ rom_loaded EmulatorGUI_new = false)
    by (right; reflexivity).
  split.
  - apply (proj1 (idle_pass_quits_or_sleeps quit_frame EmulatorGUI_new Hidle)).
    reflexivity.
  - apply (proj2 (idle_pass_quits_or_sleeps key_frame EmulatorGUI_new Hidle)).
    reflexivity.
Defined.

Lemma quit_event_ends_running_pass_witness :
  emulation_loop_body quit_frame timer_loaded
  = mkRun Returned (set_running false (set_chip8 (chip8 timer_loaded)
                                                 timer_loaded))
          ([CallHandleInput] ++ [PygameQuit; RootQuit; RootDestroy]).
Proof.
  assert (Hrom : rom_loaded timer_loaded = true) by reflexivity.
  assert (Hpaused : paused timer_loaded = false) by reflexivity.
  assert (Hev : events quit_frame = [OtherEvent 768] ++ QUIT :: [OtherEvent 769])
    by reflexivity.
  assert (Hq : has_quit [OtherEvent 768] = false) by reflexivity.
  assert (Hc : call_each (fun _ => Chip8_handle_input (keyboard quit_frame))
                         [OtherEvent 768] (chip8 timer_loaded)
               = Ok (chip8 timer_loaded)) by (vm_compute; reflexivity).
  exact (quit_event_ends_running_pass quit_frame [OtherEvent 768]
           [OtherEvent 769] timer_loaded (chip8 timer_loaded)
           Hrom Hpaused Hev Hq Hc).
Defined.

Lemma idle_loop_never_touches_interpreter_witness :
  chip8 (final (emulation_loop [key_frame; quiet_frame; key_frame]
                               EmulatorGUI_new))
  = chip8 EmulatorGUI_new.
Proof.
  assert (Hidle : paused EmulatorGUI_new = true
                  \/ rom_loaded EmulatorGUI_new = false)
    by (right; reflexivity).
  exact (proj1 (idle_loop_never_touches_interpreter
                  [key_frame; quiet_frame; key_frame] EmulatorGUI_new Hidle)).
Defined.

Lemma pause_freezes_interpreter_witness :
  let g1 := final (toggle_pause timer_loaded) in
  let g2 := final (emulation_loop [key_frame; quiet_frame] g1) in
  let g3 := final (toggle_pause g2) in
  chip8 g3 = chip8 timer_loaded /\ paused g3 = false.
Proof.
  assert (Hpaused : paused timer_loaded = false) by reflexivity.
  destruct (pause_freezes_interpreter [key_frame; quiet_frame] timer_loaded
              Hpaused) as (_ & _ & Hchip & Hp & _).
  split; [exact Hchip|exact Hp].
Defined.

Lemma emulation_loop_app_witness :
  emulation_loop ([quiet_frame] ++ [key_frame]) timer_loaded
  = (emulation_loop [quiet_frame] ;; emulation_loop [key_frame]) timer_loaded.
Proof.
  assert (Hout : outcome (emulation_loop [quiet_frame] timer_loaded)
                 = Normal tt) by (vm_compute; reflexivity).
  exact (emulation_loop_app [quiet_frame] [key_frame] timer_loaded Hout).
Defined.

Lemma draw_display_short_framebuffer_witness :
  outcome (draw_display short_framebuffer) = Uncaught IndexError.
Proof.
  assert (Hlen : (length (display (chip8 short_framebuffer)) < 2048)%nat)
    by (vm_compute; lia).
  exact (proj1 (draw_display_short_framebuffer short_framebuffer Hlen)).
Defined.

Lemma draw_display_covers_window_witness :
  screen (final (draw_display one_pixel_lit)) 19%nat 10%nat = WHITE /\
  screen (final (draw_display one_pixel_lit)) 639%nat 319%nat = BLACK /\
  screen (final (draw_display one_pixel_lit)) 640%nat 0%nat
  = screen one_pixel_lit 640%nat 0%nat.
Proof.
  assert (Hlen : (2048 <= length (display (chip8 one_pixel_lit)))%nat)
    by (vm_compute; lia).
  destruct (draw_display_covers_window one_pixel_lit Hlen) as [Hin Hout].
  split; [|split].
  - destruct (Hin 19%nat 10%nat) as (v & Hv & ->); [lia | lia |].
    vm_compute in Hv. injection Hv as <-. reflexivity.
  - destruct (Hin 639%nat 319%nat) as (v & Hv & ->); [lia | lia |].
    vm_compute in Hv. injection Hv as <-. reflexivity.
  - apply Hout. left. lia.
Defined.

Lemma run_stops_after_exit_witness :
  let u := mkUpdate [ButtonPauseResume; MenuExit; ButtonReset] false in
  run (u :: [mkUpdate [ButtonPauseResume] false]) timer_started
  = run [u] timer_started /\
  running (final (run [u] timer_started)) = false.
Proof.
  assert (Hstop : tcl_error (mkUpdate [ButtonPauseResume; MenuExit; ButtonReset]
                                      false) = true
                  \/ In MenuExit
                        (callbacks (mkUpdate [ButtonPauseResume; MenuExit;
                                              ButtonReset] false)))
    by (right; simpl; auto).
  destruct (run_stops_after_exit
              (mkUpdate [ButtonPauseResume; MenuExit; ButtonReset] false)
              [mkUpdate [ButtonPauseResume] false] timer_started Hstop)
    as (Heq & _ & Hoff).
  split; [exact Heq|exact Hoff].
Defined.

Lemma interpreter_fault_ends_pass_witness :
  outcome (emulation_loop_body quiet_frame return_loaded)
  = Uncaught StackUnderflow /\
  final (emulation_loop_body quiet_frame return_loaded)
  = set_chip8 return_faulted return_loaded.
Proof.
  assert (Hrom : rom_loaded return_loaded = true) by reflexivity.
  assert (Hpaused : paused return_loaded = false) by reflexivity.
  assert (Hq : has_quit (events quiet_frame) = false) by reflexivity.
  assert (Hdrive : drive quiet_frame (chip8 return_loaded)
                   = Raises StackUnderflow return_faulted)
    by (vm_compute; reflexivity).
  destruct (interpreter_fault_ends_pass quiet_frame return_loaded
              StackUnderflow return_faulted Hrom Hpaused Hq Hdrive)
    as (Hout & Hfinal & _).
  split; [exact Hout|exact Hfinal].
Defined.

Lemma short_framebuffer_stops_pass_witness :
  outcome (emulation_loop_body quiet_frame short_framebuffer)
  = Uncaught IndexError /\
  draw_flag (chip8 (final (emulation_loop_body quiet_frame short_framebuffer)))
  = true.
Proof.
  assert (Hrom : rom_loaded short_framebuffer = true) by reflexivity.
  assert (Hpaused : paused short_framebuffer = false) by reflexivity.
  assert (Hq : has_quit (events quiet_frame) = false) by reflexivity.
  assert (Hdrive : drive quiet_frame (chip8 short_framebuffer)
                   = Ok short_driven) by (vm_compute; reflexivity).
  assert (Hflag : draw_flag short_driven = true) by (vm_compute; reflexivity).
  assert (Hlen : (length (display short_driven) < 2048)%nat)
    by (vm_compute; lia).
  destruct (short_framebuffer_stops_pass quiet_frame short_framebuffer
              short_driven Hrom Hpaused Hq Hdrive Hflag Hlen)
    as (Hout & _ & _ & Hf).
  split; [exact Hout|exact Hf].
Defined.

Lemma reset_keeps_host_fields_witness :
  final (reset EmulatorGUI_new) = EmulatorGUI_new /\
  paused (final (reset (final (toggle_pause timer_started)))) = true.
Proof.
  destruct (reset_keeps_host_fields EmulatorGUI_new)
    as (_ & _ & _ & _ & _ & Hnoop).
  destruct (reset_keeps_host_fields (final (toggle_pause timer_started)))
    as (_ & Hpaused & _).
  split; [apply Hnoop; vm_compute; reflexivity|].
  rewrite Hpaused. vm_compute. reflexivity.
Defined.

Lemma commands_keep_screen_and_flag_order_witness :
  running (final (command (MenuLoadRom sample_files "roms/timer.ch8")
                          (final (command MenuExit timer_started)))) = false /\
  rom_loaded (final (command (MenuLoadRom sample_files "roms/oversized.ch8")
                             timer_started)) = true.
Proof.
  destruct (commands_keep_screen_and_flag_order
              (MenuLoadRom sample_files "roms/timer.ch8")
              (final (command MenuExit timer_started))) as (_ & Hoff & _).
  destruct (commands_keep_screen_and_flag_order
              (MenuLoadRom sample_files "roms/oversized.ch8") timer_started)
    as (_ & _ & Hrom).
  split.
  - apply Hoff. vm_compute. reflexivity.
  - apply Hrom. vm_compute. reflexivity.
Defined.

(** ** Ten cycles, then the display *)

Lemma count_none_In p tr e : count p tr = 0%nat -> In e tr -> p e = false.
Proof.
  unfold count. intros Hnone Hin. destruct (p e) eqn:He; [|reflexivity].
  assert (Hf : In e (List.filter p tr)) by (by apply List.filter_In).
  destruct (List.filter p tr); [destruct Hf|discriminate].
Qed.

Section TenCycles.
Context `{Chip8Core}.

Lemma handle_events_with_quit (f : Frame) (g : EmulatorGUI) :
  has_quit (events f) = true -> outcome (handle_events f g) <> Normal tt.
Proof.
  unfold handle_events, has_quit. destruct f as [evs kb rnd].
  cbn [events keyboard].
  revert g. induction evs as [|[|ty] evs IH]; intros g Hq;
    cbn [for_each is_quit List.existsb orb] in *.
  - discriminate.
  - rewrite bind_outcome, quit_and_return. discriminate.
  - rewrite bind_outcome. unfold call_chip8 at 1 2.
    destruct (Chip8_handle_input kb (chip8 g)) as [c'|e c'];
      cbn [outcome final]; [by apply IH|discriminate].
Qed.

(** The display block leaves the interpreter alone but for the draw flag,
    which it clears when it runs to its end. *)
Lemma update_display_chip8_cases (g : EmulatorGUI) :
  (outcome (update_display g) = Normal tt /\
   chip8 (final (update_display g)) = set_draw_flag false (chip8 g)) \/
  (outcome (update_display g) <> Normal tt /\
   chip8 (final (update_display g)) = chip8 g).
Proof.
  destruct (draw_flag (chip8 g)) eqn:Hflag.
  - unfold update_display.
    rewrite (bind_normal get _ g g g []) by reflexivity.
    cbn beta. rewrite Hflag.
    rewrite (bind_normal (emit (ScreenFill BLACK)) _ g tt g [ScreenFill BLACK])
      by reflexivity.
    rewrite (bind_normal (modify _) _ g tt
               (set_screen (fun _ _ => BLACK) g) []) by reflexivity.
    cbn [outcome final].
    rewrite bind_outcome, bind_final.
    pose proof (draw_display_chip8 (set_screen (fun _ _ => BLACK) g)) as Hd.
    destruct (outcome (draw_display (set_screen (fun _ _ => BLACK) g)))
      as [[]| |e].
    + left. split; [reflexivity|]. cbn beta.
      rewrite flip_and_clear_final. cbn [chip8 set_chip8]. by rewrite Hd.
    + right. split; [discriminate|exact Hd].
    + right. split; [discriminate|exact Hd].
  - left. rewrite (update_display_idle g Hflag). cbn [outcome final].
    split; [reflexivity|]. rewrite <- Hflag. by rewrite set_draw_flag_same.
Qed.

(** With no QUIT event pending and every interpreter call returning, the
    display block and the frame clock of the pass run on the host whose
    interpreter is the result of the input polls followed by the 10
    [emulate_cycle] calls. *)
Lemma running_pass_reaches_display (f : Frame) (g : EmulatorGUI) (c1 : Chip8) :
  rom_loaded g = true -> paused g = false ->
  has_quit (events f) = false ->
  drive f (chip8 g) = Ok c1 ->
  emulation_loop_body f g =
  mkRun (outcome ((update_display ;; emit (ClockTick 60)) (set_chip8 c1 g)))
        (final ((update_display ;; emit (ClockTick 60)) (set_chip8 c1 g)))
        (replicate (length (events f)) CallHandleInput
         ++ replicate 10 CallEmulateCycle
         ++ effects ((update_display ;; emit (ClockTick 60))
                       (set_chip8 c1 g))).
Proof.
  intros Hrom Hpaused Hq Hdrive. unfold emulation_loop_body.
  rewrite (bind_normal get _ g g g []) by reflexivity.
  cbn beta. rewrite Hrom, Hpaused. cbn [andb negb].
  unfold drive in Hdrive.
  destruct (call_each _ (events f) (chip8 g)) as [c0|e c0] eqn:Hev;
    [|discriminate].
  rewrite (bind_normal _ _ _ _ _ _ (handle_events_run f g c0 Hq Hev)).
  rewrite (bind_normal _ _ _ _ _ _
             (emulate_cycles_run f (set_chip8 c0 g) c1 Hdrive)).
  cbn [outcome final effects]. reflexivity.
Qed.

(** A pass through the running branch that meets a QUIT event, or in which
    an interpreter call raises, does not run to its end and makes no display
    update. *)
Lemma running_pass_cut_short (f : Frame) (g : EmulatorGUI) :
  rom_loaded g = true -> paused g = false ->
  has_quit (events f) = true \/
  (exists e c, drive f (chip8 g) = Raises e c) ->
  outcome (emulation_loop_body f g) <> Normal tt /\
  Forall (fun e => is_display_update e = false)
         (effects (emulation_loop_body f g)).
Proof.
  intros Hrom Hpaused Hcut.
  destruct (has_quit (events f)) eqn:Hq.
  - unfold emulation_loop_body.
    rewrite (bind_normal get _ g g g []) by reflexivity.
    cbn beta. rewrite Hrom, Hpaused. cbn [andb negb outcome effects app].
    rewrite bind_outcome, bind_effects.
    pose proof (handle_events_with_quit f g Hq) as Hnot.
    pose proof (handle_events_effects f g) as Heff.
    destruct (outcome (handle_events f g)) as [[]| |e]; [done| |].
    + split; [discriminate|]. rewrite app_nil_r.
      eapply Forall_impl; [exact Heff|]. by intros ev [].
    + split; [discriminate|]. rewrite app_nil_r.
      eapply Forall_impl; [exact Heff|]. by intros ev [].
  - destruct Hcut as [|(e & c & Hdrive)]; [discriminate|].
    unfold drive in Hdrive.
    destruct (call_each _ (events f) (chip8 g)) as [c0|e0 c0] eqn:Hev.
    + destruct (cycle_fault_propagates f g c0 c e Hrom Hpaused Hq Hev Hdrive)
        as (k & ->).
      split; [discriminate|]. cbn [effects].
      apply Forall_app. split; apply Forall_replicate; reflexivity.
    + injection Hdrive as <- <-.
      destruct (handle_events_raises f g e0 c0 Hq Hev) as (k & Hrun).
      unfold emulation_loop_body.
      rewrite (bind_normal get _ g g g []) by reflexivity.
      cbn beta. rewrite Hrom, Hpaused. cbn [andb negb].
      rewrite (bind_uncaught _ _ _ _ _ _ Hrun).
      split; [discriminate|]. cbn [effects app].
      apply Forall_replicate. reflexivity.
Qed.

(** C4.  In a pass of the loop with a ROM loaded and not paused, the host
    executes exactly 10 interpreter cycles before it updates the display.
    With no QUIT event pending and the interpreter calls returning (the
    interpreter after them, [c1], is that of [drive]: the input polls, then
    [emulate_cycle] applied 10 times), the display block and the frame clock
    run on the host that holds [c1], after the 10 calls.  Whatever display
    update a pass makes (screen fill, flip) is therefore preceded by exactly
    10 [emulate_cycle] calls of that pass and followed by none, and was made
    from that [c1]; a pass that runs to its end has made exactly 10 calls
    and holds [c1] with the draw flag cleared; and a pass that is cut short,
    by a QUIT event or by an interpreter call that raises, makes no display
    update at all. *)
Theorem ten_cycles_before_display_update (f : Frame) (g : EmulatorGUI) :
  rom_loaded g = true -> paused g = false ->
  let r := emulation_loop_body f g in
  (forall pre e post,
     effects r = pre ++ e :: post -> is_display_update e = true ->
     count is_cycle_call pre = 10%nat /\ count is_cycle_call post = 0%nat /\
     exists c1,
       has_quit (events f) = false /\ drive f (chip8 g) = Ok c1 /\
       draw_flag c1 = true /\
       set_draw_flag false (chip8 (final r)) = set_draw_flag false c1) /\
  (outcome r = Normal tt ->
     count is_cycle_call (effects r) = 10%nat /\
     exists c1,
       has_quit (events f) = false /\ drive f (chip8 g) = Ok c1 /\
       chip8 (final r) = set_draw_flag false c1) /\
  (forall c1,
     has_quit (events f) = false -> drive f (chip8 g) = Ok c1 ->
     let r' := (update_display ;; emit (ClockTick 60)) (set_chip8 c1 g) in
     r = mkRun (outcome r') (final r')
               (replicate (length (events f)) CallHandleInput
                ++ replicate 10 CallEmulateCycle ++ effects r')) /\
  (has_quit (events f) = true \/
   (exists e c, drive f (chip8 g) = Raises e c) ->
   outcome r <> Normal tt /\ count is_display_update (effects r) = 0%nat).
Proof.
  intros Hrom Hpaused r. subst r.
  (* the calls of the pass, by kind *)
  destruct (running_pass_shape f g Hrom Hpaused)
    as (E1 & k & E3 & Hshape & H1 & H3 & Hreach & Hdone).
  assert (H1c : count is_cycle_call E1 = 0%nat).
  { apply count_none. eapply Forall_impl; [exact H1|]. by intros e []. }
  (* the two ways a pass goes *)
  assert (Hways :
    (exists c1, has_quit (events f) = false /\ drive f (chip8 g) = Ok c1) \/
    (has_quit (events f) = true \/
     exists e c, drive f (chip8 g) = Raises e c)).
  { destruct (has_quit (events f)); [right; by left|].
    destruct (drive f (chip8 g)) as [c1|e c] eqn:Hd.
    - left. by exists c1.
    - right. right. by exists e, c. }
  assert (Hcut : has_quit (events f) = true \/
                 (exists e c, drive f (chip8 g) = Raises e c) ->
                 outcome (emulation_loop_body f g) <> Normal tt /\
                 count is_display_update (effects (emulation_loop_body f g))
                 = 0%nat).
  { intros Hc. destruct (running_pass_cut_short f g Hrom Hpaused Hc)
      as [Hout Heff].
    split; [exact Hout|by apply count_none]. }
  split; [|split; [|split]].
  - intros pre e post Heq He.
    assert (Hcounts : count is_cycle_call pre = 10%nat /\
                      count is_cycle_call post = 0%nat).
    { rewrite Hshape in Heq.
      apply split_after_prefix in Heq as (pre1 & -> & Heq).
      2:{ intros Hin. rewrite Forall_forall in H1.
          destruct (H1 e) as [_ Hne]; [by apply list_elem_of_In|congruence]. }
      apply split_after_prefix in Heq as (pre2 & -> & ->).
      2:{ intros Hin%list_elem_of_In%elem_of_replicate.
          destruct Hin as [-> _]. discriminate. }
      rewrite Hreach by (by destruct pre2).
      apply Forall_app in H3 as [H3a H3b].
      apply Forall_cons in H3b as [_ H3b].
      assert (Hkc : count is_cycle_call (replicate 10 CallEmulateCycle)
                    = 10%nat) by reflexivity.
      rewrite !count_app, H1c, Hkc, (count_none _ pre2 H3a),
        (count_none _ post H3b).
      split; reflexivity. }
    destruct Hcounts as [Hpre Hpost].
    split; [exact Hpre|]. split; [exact Hpost|].
    destruct Hways as [(c1 & Hq & Hdrive)|Hc].
    + exists c1. split; [exact Hq|]. split; [exact Hdrive|].
      pose proof (running_pass_reaches_display f g c1 Hrom Hpaused Hq Hdrive)
        as Hrun.
      assert (Hchip : set_draw_flag false
                        (chip8 (final (emulation_loop_body f g)))
                      = set_draw_flag false c1).
      { rewrite Hrun. cbn [final]. rewrite bind_final.
        destruct (update_display_chip8_cases (set_chip8 c1 g))
          as [[Hout Hc]|[Hout Hc]].
        - rewrite Hout. cbn [emit final]. rewrite Hc. reflexivity.
        - destruct (outcome (update_display (set_chip8 c1 g))) as [[]| |e0];
            [done| |]; by rewrite Hc. }
      split; [|exact Hchip].
      destruct (draw_flag c1) eqn:Hflag; [reflexivity|exfalso].
      rewrite Hrun in Heq. cbn [effects] in Heq.
      rewrite (bind_normal _ _ _ _ _ _
                 (update_display_idle (set_chip8 c1 g) Hflag)) in Heq.
      cbn [effects emit app] in Heq.
      assert (Hin : In e (replicate (length (events f)) CallHandleInput
                          ++ replicate 10 CallEmulateCycle ++ [ClockTick 60]))
        by (rewrite Heq; apply List.in_or_app; right; by left).
      apply List.in_app_or in Hin as [Hin|Hin];
        [|apply List.in_app_or in Hin as [Hin|Hin]].
      * apply list_elem_of_In, elem_of_replicate in Hin as [-> _].
        discriminate.
      * apply list_elem_of_In, elem_of_replicate in Hin as [-> _].
        discriminate.
      * destruct Hin as [<-|[]]. discriminate.
    + exfalso. destruct (Hcut Hc) as [_ Hnone].
      assert (Hin : In e (effects (emulation_loop_body f g)))
        by (rewrite Heq; apply List.in_or_app; right; by left).
      pose proof (count_none_In _ _ _ Hnone Hin). congruence.
  - intros Hout. split.
    + rewrite Hshape. rewrite (Hdone Hout).
      assert (Hkc : count is_cycle_call (replicate 10 CallEmulateCycle)
                    = 10%nat) by reflexivity.
      rewrite !count_app, H1c, Hkc, (count_none _ E3 H3). reflexivity.
    + destruct Hways as [(c1 & Hq & Hdrive)|Hc];
        [|by destruct (Hcut Hc)].
      exists c1. split; [exact Hq|]. split; [exact Hdrive|].
      pose proof (running_pass_reaches_display f g c1 Hrom Hpaused Hq Hdrive)
        as Hrun.
      rewrite Hrun in Hout |- *. cbn [outcome final] in Hout |- *.
      rewrite bind_outcome in Hout. rewrite bind_final.
      destruct (update_display_chip8_cases (set_chip8 c1 g))
        as [[Hud Hc]|[Hud Hc]].
      * rewrite Hud. cbn [emit final]. exact Hc.
      * destruct (outcome (update_display (set_chip8 c1 g))) as [[]| |e0];
          [done|discriminate|discriminate].
  - intros c1 Hq Hdrive. cbv zeta.
    apply (running_pass_reaches_display f g c1 Hrom Hpaused Hq Hdrive).
  - exact Hcut.
Qed.

End TenCycles.

Lemma ten_cycles_before_display_update_witness :
  let r := emulation_loop_body key_frame timer_loaded in
  pc (chip8 timer_loaded) = 0x200 /\
  drive key_frame (chip8 timer_loaded) = Ok timer_driven /\
  pc timer_driven = 0x204 /\ delay_timer timer_driven = 5 /\
  chip8 (final r) = set_draw_flag false timer_driven /\
  effects r
  = (CallHandleInput :: replicate 10 CallEmulateCycle)
    ++ ScreenFill BLACK :: [DisplayFlip; ClockTick 60] /\
  count is_cycle_call (CallHandleInput :: replicate 10 CallEmulateCycle)
  = 10%nat /\
  count is_cycle_call (effects r) = 10%nat.
Proof.
  assert (Hrom : rom_loaded timer_loaded = true) by reflexivity.
  assert (Hpaused : paused timer_loaded = false) by reflexivity.
  assert (Hq : has_quit (events key_frame) = false) by reflexivity.
  assert (Hdrive : drive key_frame (chip8 timer_loaded) = Ok timer_driven)
    by (vm_compute; reflexivity).
  destruct (ten_cycles_before_display_update key_frame timer_loaded
              Hrom Hpaused) as (Hbefore & Hdone & Hreach & _).
  pose proof (Hreach timer_driven Hq Hdrive) as Hrun. cbv zeta in Hrun.
  assert (Heff : effects (emulation_loop_body key_frame timer_loaded)
                 = (CallHandleInput :: replicate 10 CallEmulateCycle)
                   ++ ScreenFill BLACK :: [DisplayFlip; ClockTick 60]).
  { rewrite Hrun. vm_compute. reflexivity. }
  assert (Hout : outcome (emulation_loop_body key_frame timer_loaded)
                 = Normal tt).
  { rewrite Hrun. vm_compute. reflexivity. }
  destruct (Hdone Hout) as (Hten & c1 & _ & Hd1 & Hchip).
  assert (Hc1 : c1 = timer_driven) by congruence. subst c1.
  split; [vm_compute; reflexivity|]. split; [exact Hdrive|].
  split; [vm_compute; reflexivity|]. split; [vm_compute; reflexivity|].
  split; [exact Hchip|]. split; [exact Heff|]. split.
  - exact (proj1 (Hbefore _ _ _ Heff eq_refl)).
  - exact Hten.
Defined.
